(** * Score ledger and stats aggregation of [server.js]

    A shallow embedding of the two request handlers that make up the
    score-tracking core of the server:

    - [POST /api/game-score]  (server.js, lines 121-142), called
      [recordScore] below;
    - [GET /api/stats/:userId] (server.js, lines 145-189), called
      [getStats] below.

    Both handlers are thin layers over PostgreSQL.  The JavaScript values
    they inspect, the built-ins they call ([parseInt], [||], [?.]) and the
    SQL statements they send are modelled explicitly; the database is a
    piece of state threaded through a small promise-like monad whose
    queries may be rejected. *)

From Stdlib Require Import ZArith List String Ascii Bool Lia.
From Stdlib Require Import Permutation Sorted.
From Stdlib Require Import DecimalString DecimalPos DecimalN DecimalZ.
Import ListNotations.

Open Scope string_scope.
Open Scope Z_scope.

(* ================================================================== *)
(** * JavaScript values *)
(* ================================================================== *)

(** Values that [express.json()] can place in a property of [req.body],
    together with [undefined], which is what destructuring yields for a
    property that is absent.  A JSON number is an IEEE double: it is either
    integral ([JsNumber z], with [-0] read as [0]) or it is not
    ([JsFraction], which also stands for an overflowing literal such as
    [1e999]); JSON cannot denote [NaN].  Arrays are objects. *)
Inductive JsValue : Type :=
| JsUndefined
| JsNull
| JsBool (b : bool)
| JsNumber (z : Z)
| JsFraction
| JsString (s : string)
| JsObject.

(** [ToBoolean]: the falsy values are [undefined], [null], [false], [0]
    and the empty string. *)
Definition truthy (v : JsValue) : bool :=
  match v with
  | JsUndefined | JsNull => false
  | JsBool b => b
  | JsNumber z => negb (z =? 0)
  | JsFraction => true
  | JsString s => negb (String.eqb s EmptyString)
  | JsObject => true
  end.

(** [v === undefined]. *)
Definition is_undefined (v : JsValue) : bool :=
  match v with
  | JsUndefined => true
  | _ => false
  end.

(** The scalar values found in the cells of a query result, after
    node-postgres has decoded them: SQL [NULL] is [null], a 32-bit integer
    is a number, a 64-bit integer (what [COUNT] yields) is kept as its
    decimal text.  [CUndefined] is what optional chaining yields when there
    is no row to read the cell from. *)
Inductive Cell : Type :=
| CUndefined
| CNull
| CNumber (z : Z)
| CText (s : string).

(** The outcome of [parseInt]: an integer or [NaN]. *)
Inductive JsNum : Type :=
| NaN
| Int (z : Z).

(** Decimal text of an integer, as [Number.prototype.toString] prints an
    integral double (below [10^21] in magnitude, which covers every value
    of a PostgreSQL integer column) and as PostgreSQL prints a [bigint]. *)
Definition decimal (z : Z) : string :=
  NilEmpty.string_of_int (Z.to_int z).

(** [ToString] on scalars. *)
Definition ToString (c : Cell) : string :=
  match c with
  | CUndefined => "undefined"
  | CNull => "null"
  | CNumber z => decimal z
  | CText s => s
  end.

(** ** [parseInt] *)

(** White space skipped by [parseInt] (the ASCII part of it). *)
Definition is_white_space (c : ascii) : bool :=
  let n := nat_of_ascii c in
  ((9 <=? n) && (n <=? 13))%nat || (n =? 32)%nat.

Fixpoint trim_start (s : string) : string :=
  match s with
  | String c rest => if is_white_space c then trim_start rest else s
  | EmptyString => s
  end.

(** Value of a character as a digit in the given radix (10 or 16). *)
Definition digit_value (radix : Z) (c : ascii) : option Z :=
  let n := Z.of_nat (nat_of_ascii c) in
  let v :=
    if (48 <=? n) && (n <=? 57) then Some (n - 48)
    else if (97 <=? n) && (n <=? 122) then Some (n - 87)
    else if (65 <=? n) && (n <=? 90) then Some (n - 55)
    else None in
  match v with
  | Some d => if d <? radix then Some d else None
  | None => None
  end.

(** Reads the longest prefix of digits, most significant first. *)
Fixpoint read_digits (radix : Z) (s : string) (acc : Z) : Z :=
  match s with
  | String c rest =>
      match digit_value radix c with
      | Some d => read_digits radix rest (acc * radix + d)
      | None => acc
      end
  | EmptyString => acc
  end.

Definition strip_sign (s : string) : Z * string :=
  match s with
  | String "-" rest => (-1, rest)
  | String "+" rest => (1, rest)
  | _ => (1, s)
  end.

Definition strip_hex_prefix (s : string) : Z * string :=
  match s with
  | String "0" (String "x" rest) => (16, rest)
  | String "0" (String "X" rest) => (16, rest)
  | _ => (10, s)
  end.

(** [parseInt(string)] with no radix argument: skip white space, read a
    sign, switch to radix 16 after [0x], read digits up to the first
    character that is not one; [NaN] when there is no digit. *)
Definition parseInt_string (s : string) : JsNum :=
  let (sign, s1) := strip_sign (trim_start s) in
  let (radix, s2) := strip_hex_prefix s1 in
  match s2 with
  | String c _ =>
      match digit_value radix c with
      | Some _ => Int (sign * read_digits radix s2 0)
      | None => NaN
      end
  | EmptyString => NaN
  end.

(** [parseInt(v)]: the argument is first converted with [ToString]. *)
Definition parseInt (c : Cell) : JsNum :=
  parseInt_string (ToString c).

(** [n || 0] for a number [n]: [NaN] and [0] are falsy. *)
Definition or_zero (n : JsNum) : Z :=
  match n with
  | NaN => 0
  | Int z => if z =? 0 then 0 else z
  end.

(** [rows[0]?.column] on the rows of a one-column result. *)
Definition first_cell (rows : list Cell) : Cell :=
  match rows with
  | c :: _ => c
  | [] => CUndefined
  end.

(* ================================================================== *)
(** * The database *)
(* ================================================================== *)

(** Modelled from the spec: the [game_scores] relation, whose
    [CREATE TABLE] is not part of the repository.  A row has the four
    columns the statements of server.js name.  Following the data model of
    the specification, [user_id] and [game_type] are string identifiers,
    [score] is an integer that the driver hands back as a number, and
    [played_at] is a timestamp (here a count of clock ticks); no column is
    nullable. *)
Record ScoreRecord : Type := {
  user_id : string;
  game_type : string;
  score : Z;
  played_at : Z
}.

(** The persistent state: the identifiers of the registered users, which
    [game_scores.user_id] references, and the rows of [game_scores] in the
    order in which they were inserted. *)
Record Db : Type := {
  users : list string;
  game_scores : list ScoreRecord
}.

(** What a handler runs against: the database, the database clock that
    [CURRENT_TIMESTAMP] reads, and a script of outages.  The k-th entry of
    [outages] tells whether the k-th query from now on is rejected because
    the store cannot be reached; past the end of the script every query
    gets through. *)
Record World : Type := {
  db : Db;
  now : Z;
  outages : list bool
}.

(** The parts of PostgreSQL and of its driver that the repository does not
    determine.

    - How a bound parameter is converted to the type of the column it is
      stored in; [None] means the statement is rejected with an error.
    - The order in which [ORDER BY played_at DESC] returns rows whose
      [played_at] are equal: SQL leaves it to the executor. *)
Class Postgres : Type := {
  user_id_in : JsValue -> option string;
  game_type_in : JsValue -> option string;
  score_in : JsValue -> option Z;
  order_by_played_at_desc : list ScoreRecord -> list ScoreRecord
}.

(** [a] comes no later than [b] in a listing by [played_at] descending. *)
Definition newer_or_equal (a b : ScoreRecord) : Prop :=
  played_at b <= played_at a.

(** Modelled from the spec: what a backend holding the relation of the
    data model guarantees.  A string is accepted as it is for [user_id]
    and for [game_type], and an integer as it is for [score] (the
    specification puts no bound on a score); [ORDER BY] returns the rows it
    was given, sorted.  Nothing is said of the conversion of a value of
    another type.  PostgreSQL itself accepts less (no text holding
    U+0000, no integer beyond the width of the column, see
    [checked_backend]); a statement that is to hold of it takes the
    acceptance of the values it names as a hypothesis and asks of the
    backend the [OrderByLaws] only. *)
Class PostgresLaws (pg : Postgres) : Prop := {
  user_id_in_string : forall s, user_id_in (JsString s) = Some s;
  game_type_in_string : forall s, game_type_in (JsString s) = Some s;
  score_in_integer : forall z, score_in (JsNumber z) = Some z;
  order_by_permutation :
    forall rows, Permutation rows (order_by_played_at_desc rows);
  order_by_sorted :
    forall rows, StronglySorted newer_or_equal (order_by_played_at_desc rows)
}.

(** ** A promise-like monad over the world *)

Inductive Settled (A : Type) : Type :=
| Fulfilled (a : A)
| Rejected.
Arguments Fulfilled {A} a.
Arguments Rejected {A}.

Definition Async (A : Type) : Type := World -> Settled A * World.

Definition ret {A} (a : A) : Async A := fun w => (Fulfilled a, w).

(** [await m] followed by the rest of the [async] body: a rejection skips
    the rest. *)
Definition bind {A B} (m : Async A) (k : A -> Async B) : Async B :=
  fun w =>
    match m w with
    | (Fulfilled a, w') => k a w'
    | (Rejected, w') => (Rejected, w')
    end.

(** [try { m } catch (error) { h }]. *)
Definition try_catch {A} (m h : Async A) : Async A :=
  fun w =>
    match m w with
    | (Fulfilled a, w') => (Fulfilled a, w')
    | (Rejected, w') => h w'
    end.

Notation "x <- m ;; k" := (bind m (fun x => k))
  (at level 61, m at next level, right associativity).
Notation "m ;;; k" := (bind m (fun _ => k))
  (at level 61, right associativity).

(** ** [pool.query] *)

(** The world once a query has been attempted: one entry of the outage
    script is used up. *)
Definition attempted (w : World) : World :=
  {| db := db w; now := now w; outages := tl (outages w) |}.

(** Every query first needs the store to be reachable. *)
Definition reach : Async unit :=
  fun w =>
    if hd false (outages w)
    then (Rejected, attempted w)
    else (Fulfilled tt, attempted w).

(** Modelled from the spec: the referential-integrity check of an insert,
    [user_id] must name a registered user. *)
Definition known_user (d : Db) (u : string) : bool :=
  existsb (String.eqb u) (users d).

Definition append_row (r : ScoreRecord) (w : World) : World :=
  {| db := {| users := users (db w);
              game_scores := (game_scores (db w) ++ [r])%list |};
     now := now w;
     outages := outages w |}.

(** [INSERT INTO game_scores (user_id, game_type, score, played_at)
     VALUES ($1, $2, $3, CURRENT_TIMESTAMP)]  (lines 131-135).
    The statement is rejected when a parameter does not convert or when
    [$1] names no user; otherwise one row is appended. *)
Definition insert_game_score {pg : Postgres}
    (p1 p2 p3 : JsValue) : Async unit :=
  reach ;;;
  fun w =>
    match user_id_in p1, game_type_in p2, score_in p3 with
    | Some u, Some g, Some s =>
        if known_user (db w) u
        then (Fulfilled tt,
              append_row {| user_id := u; game_type := g; score := s;
                            played_at := now w |} w)
        else (Rejected, w)
    | _, _, _ => (Rejected, w)
    end.

(** [WHERE user_id = $1], the parameter being a string that the store
    has read as an identifier (see [with_user_id] for the reading). *)
Definition where_user (u : string) (rows : list ScoreRecord) :
    list ScoreRecord :=
  filter (fun r => String.eqb (user_id r) u) rows.

(** [WHERE user_id = $1 AND game_type = $2]. *)
Definition where_user_game (u g : string) (rows : list ScoreRecord) :
    list ScoreRecord :=
  filter (fun r => String.eqb (user_id r) u && String.eqb (game_type r) g)
         rows.

(** [MAX] and [MIN] over a column of integers: SQL [NULL] over no row. *)
Definition sql_max (l : list Z) : Cell :=
  match l with
  | [] => CNull
  | x :: rest => CNumber (fold_left Z.max rest x)
  end.

Definition sql_min (l : list Z) : Cell :=
  match l with
  | [] => CNull
  | x :: rest => CNumber (fold_left Z.min rest x)
  end.

(** [SELECT COUNT( * ) as total FROM game_scores WHERE user_id = $1]
    (lines 150-153): one row, the count as a [bigint]. *)
Definition select_total (u : string) : Async (list Cell) :=
  reach ;;;
  fun w =>
    (Fulfilled
       [CText (decimal
                 (Z.of_nat (List.length (where_user u (game_scores (db w))))))],
     w).

(** [SELECT MAX(score) as best_score FROM game_scores
     WHERE user_id = $1 AND game_type = $2]  (lines 156-159). *)
Definition select_best_score (u g : string) : Async (list Cell) :=
  reach ;;;
  fun w =>
    (Fulfilled
       [sql_max (map score (where_user_game u g (game_scores (db w))))],
     w).

(** [SELECT MIN(score) as best_moves FROM game_scores
     WHERE user_id = $1 AND game_type = $2]  (lines 162-165). *)
Definition select_best_moves (u g : string) : Async (list Cell) :=
  reach ;;;
  fun w =>
    (Fulfilled
       [sql_min (map score (where_user_game u g (game_scores (db w))))],
     w).

(** A row of the recent-games result: the three selected columns. *)
Record RecentGame : Type := {
  rg_game_type : string;
  rg_score : Z;
  rg_played_at : Z
}.

Definition recent_columns (r : ScoreRecord) : RecentGame :=
  {| rg_game_type := game_type r;
     rg_score := score r;
     rg_played_at := played_at r |}.

(** [SELECT game_type, score, played_at FROM game_scores
     WHERE user_id = $1 ORDER BY played_at DESC LIMIT 10]
    (lines 168-175). *)
Definition select_recent {pg : Postgres} (u : string) :
    Async (list RecentGame) :=
  reach ;;;
  fun w =>
    (Fulfilled
       (map recent_columns
          (firstn 10
             (order_by_played_at_desc
                (where_user u (game_scores (db w)))))),
     w).

(* ================================================================== *)
(** * The handlers *)
(* ================================================================== *)

(** The body of [POST /api/game-score] after [express.json()]: the three
    properties the handler destructures (line 123), each [JsUndefined]
    when the request does not carry it. *)
Module Req.
Record body : Type := {
  userId : JsValue;
  gameType : JsValue;
  score : JsValue
}.
End Req.

(** The [stats] object of the stats response (lines 178-183). *)
Record Stats : Type := {
  totalGames : Z;
  bestClickerScore : Z;
  bestMemoryMoves : Z;
  recentGames : list RecentGame
}.

(** The JSON documents the two handlers send. *)
Inductive Json : Type :=
| ErrorJson (error : string)
| MessageJson (message : string)
| StatsJson (stats : Stats).

Record Response : Type := {
  status : Z;
  json : Json
}.

(** [res.json(j)] and [res.status(code).json(j)]. *)
Definition res_json (j : Json) : Response :=
  {| status := 200; json := j |}.

Definition res_status_json (code : Z) (j : Json) : Response :=
  {| status := code; json := j |}.

(** [app.post('/api/game-score', ...)]  (lines 121-142). *)
Definition recordScore {pg : Postgres} (body : Req.body) : Async Response :=
  try_catch
    (let userId := Req.userId body in
     let gameType := Req.gameType body in
     let score := Req.score body in
     if negb (truthy userId) || negb (truthy gameType) || is_undefined score
     then ret (res_status_json 400 (ErrorJson "All fields are required"))
     else
       insert_game_score userId gameType score ;;;
       ret (res_json (MessageJson "Game score saved successfully")))
    (ret (res_status_json 500 (ErrorJson "Internal server error"))).

(** [app.get('/api/stats/:userId', ...)]  (lines 145-189).
    [req.params.userId] is a segment of the path, hence a string. *)
Definition getStats {pg : Postgres} (userId : string) : Async Response :=
  try_catch
    (totalGamesQuery <- select_total userId ;;
     bestClickerQuery <- select_best_score userId "clicker" ;;
     bestMemoryQuery <- select_best_moves userId "memory" ;;
     recentGamesQuery <- select_recent userId ;;
     ret (res_json (StatsJson
       {| totalGames := or_zero (parseInt (first_cell totalGamesQuery));
          bestClickerScore :=
            or_zero (parseInt (first_cell bestClickerQuery));
          bestMemoryMoves :=
            or_zero (parseInt (first_cell bestMemoryQuery));
          recentGames := recentGamesQuery |})))
    (ret (res_status_json 500 (ErrorJson "Internal server error"))).

(** ** The outcomes the specification names *)

(** [ValidationError] is the 400 response of line 127, [StorageError] the
    500 response of the [catch] blocks (lines 140 and 187), the
    acknowledgment of [recordScore] the 200 response of line 137. *)
Definition ValidationError : Response :=
  res_status_json 400 (ErrorJson "All fields are required").

Definition StorageError : Response :=
  res_status_json 500 (ErrorJson "Internal server error").

Definition Acknowledgment : Response :=
  res_json (MessageJson "Game score saved successfully").

(** The snapshot carried by a response, if it carries one. *)
Definition snapshot (r : Response) : option Stats :=
  match json r with
  | StatsJson s => Some s
  | _ => None
  end.

(** The response a handler settles with.  Both handlers catch every
    rejection, so the [Rejected] branch is never taken by them. *)
Definition response (m : Async Response) (w : World) : Response :=
  match fst (m w) with
  | Fulfilled r => r
  | Rejected => StorageError
  end.

(** The world a handler leaves behind. *)
Definition after {A} (m : Async A) (w : World) : World := snd (m w).

(** The store is reachable for the next [n] queries. *)
Definition reachable (n : nat) (w : World) : Prop :=
  existsb (fun down => down) (firstn n (outages w)) = false.

(** A request body whose three properties are present and of the types
    the data model gives them. *)
Definition request (u g : string) (s : Z) : Req.body :=
  {| Req.userId := JsString u;
     Req.gameType := JsString g;
     Req.score := JsNumber s |}.

(** A property that the data model types as a string: absent or a
    string. *)
Definition string_or_absent (v : JsValue) : Prop :=
  v = JsUndefined \/ exists s, v = JsString s.

(** A property that the data model types as an integer: absent or an
    integer. *)
Definition integer_or_absent (v : JsValue) : Prop :=
  v = JsUndefined \/ exists z, v = JsNumber z.

(** A required property is missing or empty. *)
Definition missing_or_empty (v : JsValue) : Prop :=
  v = JsUndefined \/ v = JsString EmptyString.

(** ** Sequences of calls *)

(** What happens to the server over time: a request to one of the two
    handlers, or a change of the environment (the clock moves, the
    availability of the store changes). *)
Inductive Event : Type :=
| RecordScore (body : Req.body)
| GetStats (userId : string)
| Environment (clock : Z) (script : list bool).

Definition step {pg : Postgres} (e : Event) (w : World) : World :=
  match e with
  | RecordScore body => after (recordScore body) w
  | GetStats userId => after (getStats userId) w
  | Environment clock script =>
      {| db := db w; now := clock; outages := script |}
  end.

Definition run {pg : Postgres} (events : list Event) (w : World) : World :=
  fold_left (fun w e => step e w) events w.

(* ================================================================== *)
(** * Two backends *)
(* ================================================================== *)

(** Conversions of a backend that is strict about types. *)
Definition text_in (v : JsValue) : option string :=
  match v with
  | JsString s => Some s
  | _ => None
  end.

Definition integer_in (v : JsValue) : option Z :=
  match v with
  | JsNumber z => Some z
  | _ => None
  end.

(** Insertion into a listing by [played_at] descending, before the rows
    that are as old or older. *)
Fixpoint insert_before_equal (r : ScoreRecord) (l : list ScoreRecord) :
    list ScoreRecord :=
  match l with
  | [] => [r]
  | x :: rest =>
      if played_at x <=? played_at r then r :: l
      else x :: insert_before_equal r rest
  end.

(** Insertion into a listing by [played_at] descending, after the rows
    that are as recent or more recent. *)
Fixpoint insert_after_equal (r : ScoreRecord) (l : list ScoreRecord) :
    list ScoreRecord :=
  match l with
  | [] => [r]
  | x :: rest =>
      if played_at x <? played_at r then r :: l
      else x :: insert_after_equal r rest
  end.

(** A stable sort: rows of equal [played_at] stay in the order of the
    table, oldest insertion first. *)
Definition sort_stable (rows : list ScoreRecord) : list ScoreRecord :=
  fold_right insert_before_equal [] rows.

(** The listing the specification describes: by [played_at] descending,
    rows of equal [played_at] most recently inserted first. *)
Definition sort_newest_insertion_first (rows : list ScoreRecord) :
    list ScoreRecord :=
  fold_right insert_after_equal [] rows.

Definition stable_backend : Postgres :=
  {| user_id_in := text_in;
     game_type_in := text_in;
     score_in := integer_in;
     order_by_played_at_desc := sort_stable |}.

Definition newest_first_backend : Postgres :=
  {| user_id_in := text_in;
     game_type_in := text_in;
     score_in := integer_in;
     order_by_played_at_desc := sort_newest_insertion_first |}.

(** ** Worlds used in examples *)

(** One registered user, no score yet, the store reachable. *)
Definition fresh_world : World :=
  {| db := {| users := ["ada"]; game_scores := [] |};
     now := 1000;
     outages := [] |}.

(** The store is down for the next query. *)
Definition down_world : World :=
  {| db := {| users := ["ada"];
              game_scores :=
                [{| user_id := "ada"; game_type := "clicker";
                    score := 7; played_at := 900 |}] |};
     now := 1000;
     outages := [true] |}.

(** Two scores recorded for the same user within one tick of the
    database clock, on the backend whose sort is stable. *)
Definition tie_world : World :=
  run (pg := stable_backend)
      [RecordScore (request "ada" "clicker" 1);
       RecordScore (request "ada" "memory" 2)]
      fresh_world.

(** ** The listing of recent games as the specification words it *)

(** The user's records by [played_at] descending, records played at the
    same time most recently inserted first, cut after ten. *)
Definition recent_games_as_specified (u : string) (d : Db) :
    list RecentGame :=
  map recent_columns
      (firstn 10 (sort_newest_insertion_first (where_user u (game_scores d)))).

(* ================================================================== *)
(** * The accounts *)
(* ================================================================== *)

(** Modelled from the spec: the [users] relation of the identity store,
    whose [CREATE TABLE] is not part of the repository.  A row has the six
    columns the statements of server.js name; [username], [email] and
    [password] are text, the timestamps are counts of clock ticks, and [id]
    is the identifier that [game_scores.user_id] references. *)
Module Users.
Record row : Type := {
  id : string;
  username : string;
  email : string;
  password : string;
  created_at : Z;
  last_login : Z
}.
End Users.

(** The whole persistent state, the two relations side by side, with the
    database clock and the script of outages of a [World]. *)
Record Site : Type := {
  accounts : list Users.row;
  scores : list ScoreRecord;
  clock : Z;
  script : list bool
}.

(** The world the score handlers see: the registered users are the [id]
    column of [users]. *)
Definition world_of (s : Site) : World :=
  {| db := {| users := map Users.id (accounts s);
              game_scores := scores s |};
     now := clock s;
     outages := script s |}.

Definition site_of (a : list Users.row) (w : World) : Site :=
  {| accounts := a;
     scores := game_scores (db w);
     clock := now w;
     script := outages w |}.

(** The columns [RETURNING id, username, email, created_at] and
    [SELECT id, username, email, created_at] hand to the client. *)
Module Public.
Record user : Type := {
  id : string;
  username : string;
  email : string;
  created_at : Z
}.
End Public.

Definition public_columns (a : Users.row) : Public.user :=
  {| Public.id := Users.id a;
     Public.username := Users.username a;
     Public.email := Users.email a;
     Public.created_at := Users.created_at a |}.

(** The columns [SELECT id, username, email, created_at, last_login]
    lists. *)
Module Listed.
Record user : Type := {
  id : string;
  username : string;
  email : string;
  created_at : Z;
  last_login : Z
}.
End Listed.

Definition listed_columns (a : Users.row) : Listed.user :=
  {| Listed.id := Users.id a;
     Listed.username := Users.username a;
     Listed.email := Users.email a;
     Listed.created_at := Users.created_at a;
     Listed.last_login := Users.last_login a |}.

(** A row of [SELECT gs.*, u.username FROM game_scores gs JOIN users u]. *)
Module Joined.
Record row : Type := {
  gs : ScoreRecord;
  username : string
}.
End Joined.

(** What the repository leaves to PostgreSQL for the [users] relation.

    - How a bound parameter is converted to the text of a column; [None]
      means the statement is rejected with an error.
    - The identifier a new row gets, [id] having no value in the [INSERT].
    - The order in which a [SELECT] without [ORDER BY] returns rows, and
      the order of rows with equal keys under [ORDER BY]. *)
Class Identity : Type := {
  username_in : JsValue -> option string;
  email_in : JsValue -> option string;
  password_in : JsValue -> option string;
  new_id : list Users.row -> string;
  scan_users : list Users.row -> list Users.row;
  order_by_created_at_desc : list Users.row -> list Users.row;
  order_by_gs_played_at_desc : list Joined.row -> list Joined.row
}.

Definition created_no_later (a b : Users.row) : Prop :=
  Users.created_at b <= Users.created_at a.

Definition played_no_later (a b : Joined.row) : Prop :=
  played_at (Joined.gs b) <= played_at (Joined.gs a).

(** What every backend guarantees: a scan returns the rows of the table,
    an [ORDER BY] returns the rows it was given, sorted. *)
Class IdentityLaws (idn : Identity) : Prop := {
  scan_users_permutation :
    forall t, Permutation t (scan_users t);
  order_by_created_at_permutation :
    forall t, Permutation t (order_by_created_at_desc t);
  order_by_created_at_sorted :
    forall t, StronglySorted created_no_later (order_by_created_at_desc t);
  order_by_gs_played_at_permutation :
    forall t, Permutation t (order_by_gs_played_at_desc t);
  order_by_gs_played_at_sorted :
    forall t, StronglySorted played_no_later (order_by_gs_played_at_desc t)
}.

(** ** Promises over the site *)

Module Task.

Definition t (A : Type) : Type := Site -> Settled A * Site.

Definition ret {A} (a : A) : t A := fun s => (Fulfilled a, s).

Definition bind {A B} (m : t A) (k : A -> t B) : t B :=
  fun s =>
    match m s with
    | (Fulfilled a, s') => k a s'
    | (Rejected, s') => (Rejected, s')
    end.

Definition try_catch {A} (m h : t A) : t A :=
  fun s =>
    match m s with
    | (Fulfilled a, s') => (Fulfilled a, s')
    | (Rejected, s') => h s'
    end.

(** A computation of the score handlers, run on the site. *)
Definition on_ledger {A} (m : Async A) : t A :=
  fun s =>
    match m (world_of s) with
    | (r, w) => (r, site_of (accounts s) w)
    end.

End Task.

Declare Scope task_scope.
Delimit Scope task_scope with task.
Notation "x <- m ;; k" := (Task.bind m (fun x => k))
  (at level 61, m at next level, right associativity) : task_scope.
Notation "m ;;; k" := (Task.bind m (fun _ => k))
  (at level 61, right associativity) : task_scope.

(** ** [pool.query] on [users] *)

(** The site once a query has been attempted. *)
Definition spent (s : Site) : Site :=
  {| accounts := accounts s; scores := scores s; clock := clock s;
     script := tl (script s) |}.

Definition reach_store : Task.t unit := Task.on_ledger reach.

(** [SELECT id FROM users WHERE username = $1]  (lines 46-49). *)
Definition select_id_by_username {idn : Identity} (p1 : JsValue) :
    Task.t (list string) :=
  (reach_store ;;;
   fun s =>
     match username_in p1 with
     | Some u =>
         (Fulfilled
            (map Users.id
               (filter (fun a => String.eqb (Users.username a) u)
                       (scan_users (accounts s)))),
          s)
     | None => (Rejected, s)
     end)%task.

(** [SELECT id FROM users WHERE email = $1]  (lines 56-59). *)
Definition select_id_by_email {idn : Identity} (p1 : JsValue) :
    Task.t (list string) :=
  (reach_store ;;;
   fun s =>
     match email_in p1 with
     | Some e =>
         (Fulfilled
            (map Users.id
               (filter (fun a => String.eqb (Users.email a) e)
                       (scan_users (accounts s)))),
          s)
     | None => (Rejected, s)
     end)%task.

Definition append_account (a : Users.row) (s : Site) : Site :=
  {| accounts := (accounts s ++ [a])%list; scores := scores s;
     clock := clock s; script := script s |}.

(** [INSERT INTO users (username, email, password, created_at, last_login)
     VALUES ($1, $2, $3, CURRENT_TIMESTAMP, CURRENT_TIMESTAMP)
     RETURNING id, username, email, created_at]  (lines 66-71). *)
Definition insert_user {idn : Identity} (p1 p2 p3 : JsValue) :
    Task.t (list Public.user) :=
  (reach_store ;;;
   fun s =>
     match username_in p1, email_in p2, password_in p3 with
     | Some u, Some e, Some p =>
         let a := {| Users.id := new_id (accounts s);
                     Users.username := u;
                     Users.email := e;
                     Users.password := p;
                     Users.created_at := clock s;
                     Users.last_login := clock s |} in
         (Fulfilled [public_columns a], append_account a s)
     | _, _, _ => (Rejected, s)
     end)%task.

(** [SELECT id, username, email, created_at FROM users
     WHERE email = $1 AND password = $2]  (lines 94-98). *)
Definition select_by_credentials {idn : Identity} (p1 p2 : JsValue) :
    Task.t (list Public.user) :=
  (reach_store ;;;
   fun s =>
     match email_in p1, password_in p2 with
     | Some e, Some p =>
         (Fulfilled
            (map public_columns
               (filter (fun a => String.eqb (Users.email a) e &&
                                 String.eqb (Users.password a) p)
                       (scan_users (accounts s)))),
          s)
     | _, _ => (Rejected, s)
     end)%task.

(** The row [a] with [last_login] set to [t]. *)
Definition touched (t : Z) (a : Users.row) : Users.row :=
  {| Users.id := Users.id a;
     Users.username := Users.username a;
     Users.email := Users.email a;
     Users.password := Users.password a;
     Users.created_at := Users.created_at a;
     Users.last_login := t |}.

(** The site once [last_login] is set to the time of the clock in every
    row whose [id] is [i]. *)
Definition touch_last_login (i : string) (s : Site) : Site :=
  {| accounts :=
       map (fun a => if String.eqb (Users.id a) i
                     then touched (clock s) a else a)
           (accounts s);
     scores := scores s;
     clock := clock s;
     script := script s |}.

(** [UPDATE users SET last_login = CURRENT_TIMESTAMP WHERE id = $1]
    (lines 105-108); the parameter is an [id] the database returned. *)
Definition update_last_login (i : string) : Task.t unit :=
  (reach_store ;;; fun s => (Fulfilled tt, touch_last_login i s))%task.

(** [SELECT id, username, email, created_at, last_login FROM users
     ORDER BY created_at DESC]  (lines 194-196). *)
Definition select_users {idn : Identity} : Task.t (list Listed.user) :=
  (reach_store ;;;
   fun s =>
     (Fulfilled
        (map listed_columns (order_by_created_at_desc (accounts s))),
      s))%task.

(** [game_scores gs JOIN users u ON gs.user_id = u.id], every pair of a
    score and a user that match. *)
Definition join_users (g : list ScoreRecord) (u : list Users.row) :
    list Joined.row :=
  flat_map
    (fun r =>
       map (fun a => {| Joined.gs := r; Joined.username := Users.username a |})
           (filter (fun a => String.eqb (user_id r) (Users.id a)) u))
    g.

(** [SELECT gs.*, u.username FROM game_scores gs
     JOIN users u ON gs.user_id = u.id ORDER BY gs.played_at DESC]
    (lines 207-212). *)
Definition select_game_scores {idn : Identity} : Task.t (list Joined.row) :=
  (reach_store ;;;
   fun s =>
     (Fulfilled
        (order_by_gs_played_at_desc (join_users (scores s) (accounts s))),
      s))%task.

(** ** The account handlers *)

(** The bodies of [POST /api/register] (line 38) and of
    [POST /api/login] (line 86). *)
Module Reg.
Record body : Type := {
  username : JsValue;
  email : JsValue;
  password : JsValue
}.
End Reg.

Module Login.
Record body : Type := {
  email : JsValue;
  password : JsValue
}.
End Login.

(** The JSON documents of the account handlers; [user] is [rows[0]],
    absent when there is no row. *)
Module Reply.
Inductive json : Type :=
| Error (error : string)
| User (message : string) (user : option Public.user)
| UserList (users : list Listed.user)
| ScoreList (scores : list Joined.row).

Record t : Type := {
  status : Z;
  body : json
}.
End Reply.

Definition reply_json (j : Reply.json) : Reply.t :=
  {| Reply.status := 200; Reply.body := j |}.

Definition reply_status_json (code : Z) (j : Reply.json) : Reply.t :=
  {| Reply.status := code; Reply.body := j |}.

(** [rows.length > 0]. *)
Definition some_row {A} (rows : list A) : bool :=
  (0 <? List.length rows)%nat.

(** [app.post('/api/register', ...)]  (lines 36-81). *)
Definition register {idn : Identity} (body : Reg.body) : Task.t Reply.t :=
  Task.try_catch
    (let username := Reg.username body in
     let email := Reg.email body in
     let password := Reg.password body in
     if negb (truthy username) || negb (truthy email)
        || negb (truthy password)
     then Task.ret
            (reply_status_json 400 (Reply.Error "All fields are required"))
     else
       (usernameCheck <- select_id_by_username username ;;
        if some_row usernameCheck
        then Task.ret
               (reply_status_json 400
                  (Reply.Error "Username already taken"))
        else
          emailCheck <- select_id_by_email email ;;
          if some_row emailCheck
          then Task.ret
                 (reply_status_json 400
                    (Reply.Error "Email already registered"))
          else
            result <- insert_user username email password ;;
            Task.ret
              (reply_json
                 (Reply.User "User registered successfully"
                             (hd_error result))))%task)
    (Task.ret
       (reply_status_json 500 (Reply.Error "Internal server error"))).

(** [app.post('/api/login', ...)]  (lines 84-118). *)
Definition login {idn : Identity} (body : Login.body) : Task.t Reply.t :=
  Task.try_catch
    (let email := Login.email body in
     let password := Login.password body in
     if negb (truthy email) || negb (truthy password)
     then Task.ret
            (reply_status_json 400
               (Reply.Error "Email and password are required"))
     else
       (result <- select_by_credentials email password ;;
        match result with
        | [] =>
            Task.ret
              (reply_status_json 401
                 (Reply.Error "Invalid email or password"))
        | first :: _ =>
            update_last_login (Public.id first) ;;;
            Task.ret
              (reply_json
                 (Reply.User "Login successful" (hd_error result)))
        end)%task)
    (Task.ret
       (reply_status_json 500 (Reply.Error "Internal server error"))).

(** [app.get('/api/users', ...)]  (lines 192-202). *)
Definition getUsers {idn : Identity} : Task.t Reply.t :=
  Task.try_catch
    (result <- select_users ;;
     Task.ret (reply_json (Reply.UserList result)))%task
    (Task.ret
       (reply_status_json 500 (Reply.Error "Internal server error"))).

(** [app.get('/api/game-scores', ...)]  (lines 205-218). *)
Definition getGameScores {idn : Identity} : Task.t Reply.t :=
  Task.try_catch
    (result <- select_game_scores ;;
     Task.ret (reply_json (Reply.ScoreList result)))%task
    (Task.ret
       (reply_status_json 500 (Reply.Error "Internal server error"))).

(** The reply a handler settles with and the site it leaves behind. *)
Definition reply (m : Task.t Reply.t) (s : Site) : Reply.t :=
  match fst (m s) with
  | Fulfilled r => r
  | Rejected =>
      reply_status_json 500 (Reply.Error "Internal server error")
  end.

Definition left_by {A} (m : Task.t A) (s : Site) : Site := snd (m s).

(** The replies of the account handlers, by the line that sends them. *)
Definition AllFieldsRequired : Reply.t :=
  reply_status_json 400 (Reply.Error "All fields are required").

Definition UsernameTaken : Reply.t :=
  reply_status_json 400 (Reply.Error "Username already taken").

Definition EmailRegistered : Reply.t :=
  reply_status_json 400 (Reply.Error "Email already registered").

Definition CredentialsRequired : Reply.t :=
  reply_status_json 400 (Reply.Error "Email and password are required").

Definition InvalidCredentials : Reply.t :=
  reply_status_json 401 (Reply.Error "Invalid email or password").

Definition InternalError : Reply.t :=
  reply_status_json 500 (Reply.Error "Internal server error").

Definition Registered (u : Public.user) : Reply.t :=
  reply_json (Reply.User "User registered successfully" (Some u)).

Definition LoggedIn (u : Public.user) : Reply.t :=
  reply_json (Reply.User "Login successful" (Some u)).

(** The columns of an account that no statement of server.js ever
    updates: all but [last_login]. *)
Definition identity_columns (a : Users.row) :
    string * string * string * string * Z :=
  (Users.id a, Users.username a, Users.email a, Users.password a,
   Users.created_at a).

(** The store is reachable for the next [n] queries. *)
Definition store_reachable (n : nat) (s : Site) : Prop :=
  reachable n (world_of s).

(** ** Sequences of requests to the whole server *)

Inductive Request : Type :=
| PostRegister (body : Reg.body)
| PostLogin (body : Login.body)
| PostGameScore (body : Req.body)
| GetStatsOf (userId : string)
| GetUsers
| GetGameScores
| Elapse (clock : Z) (script : list bool).

Definition serve {pg : Postgres} {idn : Identity} (r : Request) (s : Site) :
    Site :=
  match r with
  | PostRegister body => left_by (register body) s
  | PostLogin body => left_by (login body) s
  | PostGameScore body => left_by (Task.on_ledger (recordScore body)) s
  | GetStatsOf userId => left_by (Task.on_ledger (getStats userId)) s
  | GetUsers => left_by getUsers s
  | GetGameScores => left_by getGameScores s
  | Elapse t o =>
      {| accounts := accounts s; scores := scores s; clock := t;
         script := o |}
  end.

Definition serve_all {pg : Postgres} {idn : Identity}
    (requests : list Request) (s : Site) : Site :=
  fold_left (fun s r => serve r s) requests s.

(** ** A backend for the accounts *)

(** Insertion into a listing by [key] descending, before the entries of
    an equal or smaller key. *)
Fixpoint insert_desc {A} (key : A -> Z) (x : A) (l : list A) : list A :=
  match l with
  | [] => [x]
  | y :: rest =>
      if key y <=? key x then x :: l else y :: insert_desc key x rest
  end.

Definition sort_desc {A} (key : A -> Z) (l : list A) : list A :=
  fold_right (insert_desc key) [] l.

(** Strict about types, numbering the accounts from 1, scanning in the
    order of insertion, sorting stably. *)
Definition serial_identity : Identity :=
  {| username_in := text_in;
     email_in := text_in;
     password_in := text_in;
     new_id := fun t => decimal (Z.of_nat (S (List.length t)));
     scan_users := fun t => t;
     order_by_created_at_desc := sort_desc Users.created_at;
     order_by_gs_played_at_desc :=
       sort_desc (fun j => played_at (Joined.gs j)) |}.

(** ** Sites used in examples *)

Definition empty_site : Site :=
  {| accounts := []; scores := []; clock := 1000; script := [] |}.

Definition ada_body : Reg.body :=
  {| Reg.username := JsString "ada";
     Reg.email := JsString "ada@example.org";
     Reg.password := JsString "s3cret" |}.

Definition bob_body : Reg.body :=
  {| Reg.username := JsString "bob";
     Reg.email := JsString "bob@example.org";
     Reg.password := JsString "hunter2" |}.

(** Two accounts registered one tick apart, and a score of the first. *)
Definition small_site : Site :=
  {| accounts :=
       [{| Users.id := "1"; Users.username := "ada";
           Users.email := "ada@example.org"; Users.password := "s3cret";
           Users.created_at := 1000; Users.last_login := 1000 |};
        {| Users.id := "2"; Users.username := "bob";
           Users.email := "bob@example.org"; Users.password := "hunter2";
           Users.created_at := 1001; Users.last_login := 1001 |}];
     scores :=
       [{| user_id := "1"; game_type := "clicker"; score := 7;
           played_at := 1002 |}];
     clock := 1002;
     script := [] |}.

(** ** A world with two players *)

Definition league_world : World :=
  {| db := {| users := ["ada"; "bob"];
              game_scores :=
                [{| user_id := "ada"; game_type := "clicker"; score := 7;
                    played_at := 900 |};
                 {| user_id := "bob"; game_type := "clicker"; score := 9;
                    played_at := 950 |};
                 {| user_id := "ada"; game_type := "memory"; score := 14;
                    played_at := 960 |}] |};
     now := 1000;
     outages := [] |}.

(* ================================================================== *)
(** * The store as PostgreSQL serves it *)
(* ================================================================== *)

(** What [ORDER BY played_at DESC] guarantees on any backend, apart from
    every conversion of a parameter. *)
Class OrderByLaws (pg : Postgres) : Prop := {
  sorted_rows_permutation :
    forall rows, Permutation rows (order_by_played_at_desc rows);
  sorted_rows_sorted :
    forall rows, StronglySorted newer_or_equal (order_by_played_at_desc rows)
}.

(** [pool.query(sql, [userId, ...])] for the reads of lines 150-175.  The
    store first reads the text bound to [$1] as a value of the type of
    [user_id]; when it refuses the text the query is rejected, like any
    query the store cannot serve. *)
Definition with_user_id {pg : Postgres} {A} (userId : string)
    (query : string -> Async A) : Async A :=
  match user_id_in (JsString userId) with
  | Some u => query u
  | None => reach ;;; fun w => (Rejected, w)
  end.

(** [app.get('/api/stats/:userId', ...)]  (lines 145-189), with the
    binding of [$1] in each of the four queries. *)
Definition getStats_bound {pg : Postgres} (userId : string) :
    Async Response :=
  try_catch
    (totalGamesQuery <- with_user_id userId select_total ;;
     bestClickerQuery <-
       with_user_id userId (fun u => select_best_score u "clicker") ;;
     bestMemoryQuery <-
       with_user_id userId (fun u => select_best_moves u "memory") ;;
     recentGamesQuery <- with_user_id userId select_recent ;;
     ret (res_json (StatsJson
       {| totalGames := or_zero (parseInt (first_cell totalGamesQuery));
          bestClickerScore :=
            or_zero (parseInt (first_cell bestClickerQuery));
          bestMemoryMoves :=
            or_zero (parseInt (first_cell bestMemoryQuery));
          recentGames := recentGamesQuery |})))
    (ret (res_status_json 500 (ErrorJson "Internal server error"))).

(** What the server serves while a handler awaits the answer to a query:
    the requests of other clients. *)
Definition meanwhile {pg : Postgres} (events : list Event) : Async unit :=
  fun w => (Fulfilled tt, run events w).

(** [app.get('/api/stats/:userId', ...)]  (lines 145-189) among other
    requests: the four queries are four separate [await]s on the pool,
    outside any transaction, and [e1], [e2] and [e3] are served between
    them. *)
Definition getStats_among {pg : Postgres} (userId : string)
    (e1 e2 e3 : list Event) : Async Response :=
  try_catch
    (totalGamesQuery <- select_total userId ;;
     meanwhile e1 ;;;
     bestClickerQuery <- select_best_score userId "clicker" ;;
     meanwhile e2 ;;;
     bestMemoryQuery <- select_best_moves userId "memory" ;;
     meanwhile e3 ;;;
     recentGamesQuery <- select_recent userId ;;
     ret (res_json (StatsJson
       {| totalGames := or_zero (parseInt (first_cell totalGamesQuery));
          bestClickerScore :=
            or_zero (parseInt (first_cell bestClickerQuery));
          bestMemoryMoves :=
            or_zero (parseInt (first_cell bestMemoryQuery));
          recentGames := recentGamesQuery |})))
    (ret (res_status_json 500 (ErrorJson "Internal server error"))).

(** ** A backend that refuses what PostgreSQL refuses *)

(** The character U+0000, which PostgreSQL accepts in no text. *)
Fixpoint has_nul (s : string) : bool :=
  match s with
  | EmptyString => false
  | String c rest => Ascii.eqb c zero || has_nul rest
  end.

Definition checked_text_in (v : JsValue) : option string :=
  match v with
  | JsString s => if has_nul s then None else Some s
  | _ => None
  end.

(** The integers of a 32-bit column. *)
Definition checked_integer_in (v : JsValue) : option Z :=
  match v with
  | JsNumber z =>
      if (-2147483648 <=? z) && (z <=? 2147483647) then Some z else None
  | _ => None
  end.

Definition checked_backend : Postgres :=
  {| user_id_in := checked_text_in;
     game_type_in := checked_text_in;
     score_in := checked_integer_in;
     order_by_played_at_desc := sort_stable |}.

(** The path segment [%00]. *)
Definition nul_user : string := String zero EmptyString.

(** A request whose [userId] is the number 0. *)
Definition zero_user_body : Req.body :=
  {| Req.userId := JsNumber 0;
     Req.gameType := JsString "clicker";
     Req.score := JsNumber 5 |}.

(* ================================================================== *)
(** * Facts about the JavaScript built-ins *)
(* ================================================================== *)

Example parseInt_examples :
  parseInt (CText "42") = Int 42 /\
  parseInt (CNumber (-7)) = Int (-7) /\
  parseInt CNull = NaN /\
  parseInt CUndefined = NaN /\
  parseInt (CText "  +12px") = Int 12 /\
  parseInt (CText "0x1f") = Int 31 /\
  parseInt (CText EmptyString) = NaN /\
  parseInt (CText "-") = NaN.
Proof. repeat split; reflexivity. Qed.

Section DecimalText.

Import Decimal.

Local Abbreviation text := NilEmpty.string_of_uint.

Lemma read_digits_acc (d : uint) (acc : positive) :
  read_digits 10 (text d) (Z.pos acc) = Z.pos (Pos.of_uint_acc d acc).
Proof.
  revert acc.
  induction d as [|d IH|d IH|d IH|d IH|d IH|d IH|d IH|d IH|d IH|d IH];
    intros acc; [reflexivity|..];
    cbn [text NilEmpty.string_of_uint read_digits Pos.of_uint_acc];
    change (digit_value 10 _) with (Some 0) at 1 ||
    change (digit_value 10 _) with (Some 1) at 1 ||
    change (digit_value 10 _) with (Some 2) at 1 ||
    change (digit_value 10 _) with (Some 3) at 1 ||
    change (digit_value 10 _) with (Some 4) at 1 ||
    change (digit_value 10 _) with (Some 5) at 1 ||
    change (digit_value 10 _) with (Some 6) at 1 ||
    change (digit_value 10 _) with (Some 7) at 1 ||
    change (digit_value 10 _) with (Some 8) at 1 ||
    change (digit_value 10 _) with (Some 9) at 1;
    cbv iota beta;
    fold (text d);
    match goal with
    | |- read_digits 10 _ ?a = Z.pos (Pos.of_uint_acc _ ?b) =>
        replace a with (Z.pos b) by lia
    end;
    apply IH.
Qed.

Lemma read_digits_uint (d : uint) :
  read_digits 10 (text d) 0 = Z.of_N (Pos.of_uint d).
Proof.
  induction d as [|d IH|d IH|d IH|d IH|d IH|d IH|d IH|d IH|d IH|d IH];
    [reflexivity | exact IH | ..];
    cbn [text NilEmpty.string_of_uint read_digits Pos.of_uint];
    (change (digit_value 10 _) with (Some 1) at 1 ||
     change (digit_value 10 _) with (Some 2) at 1 ||
     change (digit_value 10 _) with (Some 3) at 1 ||
     change (digit_value 10 _) with (Some 4) at 1 ||
     change (digit_value 10 _) with (Some 5) at 1 ||
     change (digit_value 10 _) with (Some 6) at 1 ||
     change (digit_value 10 _) with (Some 7) at 1 ||
     change (digit_value 10 _) with (Some 8) at 1 ||
     change (digit_value 10 _) with (Some 9) at 1);
    cbv iota beta; fold (text d);
    apply (read_digits_acc d).
Qed.

(** The decimal text of a non-empty numeral starts with a digit: there
    is no white space to skip, no sign and no [0x] to strip. *)
Lemma text_head (d : uint) :
  d <> Nil ->
  exists c rest,
    text d = String c rest /\
    digit_value 10 c <> None /\
    trim_start (text d) = text d /\
    strip_sign (text d) = (1, text d) /\
    strip_hex_prefix (text d) = (10, text d).
Proof.
  intros Hd.
  destruct d as [|d|d|d|d|d|d|d|d|d|d]; [congruence|..];
    eexists; eexists; (split; [reflexivity|]);
    (split; [discriminate|]); repeat split.
  destruct d; reflexivity.
Qed.

Lemma parseInt_string_pos (p : positive) :
  parseInt_string (text (Pos.to_uint p)) = Int (Z.pos p).
Proof.
  destruct (text_head (Pos.to_uint p) (DecimalPos.Unsigned.to_uint_nonnil p))
    as (c & rest & Hs & Hc & Htrim & Hsign & Hhex).
  unfold parseInt_string.
  rewrite Htrim, Hsign, Hhex, Hs.
  destruct (digit_value 10 c); [|congruence].
  rewrite <- Hs, read_digits_uint, DecimalPos.Unsigned.of_to.
  reflexivity.
Qed.

Lemma parseInt_string_neg (p : positive) :
  parseInt_string (String "-" (text (Pos.to_uint p))) = Int (Z.neg p).
Proof.
  destruct (text_head (Pos.to_uint p) (DecimalPos.Unsigned.to_uint_nonnil p))
    as (c & rest & Hs & Hc & Htrim & Hsign & Hhex).
  unfold parseInt_string.
  change (trim_start (String "-" (text (Pos.to_uint p))))
    with (String "-" (text (Pos.to_uint p))).
  change (strip_sign (String "-" (text (Pos.to_uint p))))
    with (-1, text (Pos.to_uint p)).
  cbv iota beta.
  rewrite Hhex, Hs.
  destruct (digit_value 10 c); [|congruence].
  rewrite <- Hs, read_digits_uint, DecimalPos.Unsigned.of_to.
  reflexivity.
Qed.

End DecimalText.

(** [parseInt] reads back the decimal text of any integer. *)
Lemma parseInt_string_decimal (z : Z) :
  parseInt_string (decimal z) = Int z.
Proof.
  destruct z as [|p|p].
  - reflexivity.
  - apply parseInt_string_pos.
  - apply parseInt_string_neg.
Qed.

Lemma parseInt_number (z : Z) : parseInt (CNumber z) = Int z.
Proof. apply parseInt_string_decimal. Qed.

Lemma parseInt_bigint (z : Z) : parseInt (CText (decimal z)) = Int z.
Proof. apply parseInt_string_decimal. Qed.

Lemma or_zero_Int (z : Z) : or_zero (Int z) = z.
Proof.
  unfold or_zero. destruct (Z.eqb_spec z 0); congruence.
Qed.

(* ================================================================== *)
(** * Facts about the queries *)
(* ================================================================== *)

Lemma fold_left_max_spec (l : list Z) (x : Z) :
  In (fold_left Z.max l x) (x :: l) /\
  forall y, In y (x :: l) -> y <= fold_left Z.max l x.
Proof.
  revert x. induction l as [|a l IH]; intros x; cbn [fold_left].
  - split; [now left|]. intros y [<-|[]]. lia.
  - destruct (IH (Z.max x a)) as [Hin Hle]. split.
    + destruct Hin as [Hm|Hin].
      * rewrite <- Hm. destruct (Z.max_spec x a) as [[_ ->]|[_ ->]];
          [right; now left | now left].
      * right; now right.
    + intros y [<-|[<-|Hy]].
      * etransitivity; [apply (Z.le_max_l x a)|]. apply Hle. now left.
      * etransitivity; [apply (Z.le_max_r x a)|]. apply Hle. now left.
      * apply Hle. now right.
Qed.

Lemma fold_left_min_spec (l : list Z) (x : Z) :
  In (fold_left Z.min l x) (x :: l) /\
  forall y, In y (x :: l) -> fold_left Z.min l x <= y.
Proof.
  revert x. induction l as [|a l IH]; intros x; cbn [fold_left].
  - split; [now left|]. intros y [<-|[]]. lia.
  - destruct (IH (Z.min x a)) as [Hin Hle]. split.
    + destruct Hin as [Hm|Hin].
      * rewrite <- Hm. destruct (Z.min_spec x a) as [[_ ->]|[_ ->]];
          [now left | right; now left].
      * right; now right.
    + intros y [<-|[<-|Hy]].
      * etransitivity; [|apply (Z.le_min_l x a)]. apply Hle. now left.
      * etransitivity; [|apply (Z.le_min_r x a)]. apply Hle. now left.
      * apply Hle. now right.
Qed.

(** [parseInt(cell) || 0] over the cell of a [MAX] or [MIN]. *)
Lemma best_of_sql_max (l : list Z) :
  or_zero (parseInt (first_cell [sql_max l])) =
  match l with
  | [] => 0
  | x :: rest => fold_left Z.max rest x
  end.
Proof.
  destruct l as [|x rest]; [reflexivity|].
  cbn [first_cell sql_max]. now rewrite parseInt_number, or_zero_Int.
Qed.

Lemma best_of_sql_min (l : list Z) :
  or_zero (parseInt (first_cell [sql_min l])) =
  match l with
  | [] => 0
  | x :: rest => fold_left Z.min rest x
  end.
Proof.
  destruct l as [|x rest]; [reflexivity|].
  cbn [first_cell sql_min]. now rewrite parseInt_number, or_zero_Int.
Qed.

Lemma total_of_count (n : nat) :
  or_zero (parseInt (first_cell [CText (decimal (Z.of_nat n))])) =
  Z.of_nat n.
Proof.
  cbn [first_cell]. now rewrite parseInt_bigint, or_zero_Int.
Qed.

(** ** Evaluation of the handlers *)

Section Handlers.

Context {pg : Postgres}.

Lemma getStats_reachable (u : string) (w : World) :
  reachable 4 w ->
  response (getStats u) w =
  res_json (StatsJson
    {| totalGames :=
         or_zero (parseInt (first_cell
           [CText (decimal (Z.of_nat (List.length
              (where_user u (game_scores (db w))))))]));
       bestClickerScore :=
         or_zero (parseInt (first_cell
           [sql_max (map score
              (where_user_game u "clicker" (game_scores (db w))))]));
       bestMemoryMoves :=
         or_zero (parseInt (first_cell
           [sql_min (map score
              (where_user_game u "memory" (game_scores (db w))))]));
       recentGames :=
         map recent_columns
           (firstn 10
              (order_by_played_at_desc
                 (where_user u (game_scores (db w))))) |}) /\
  db (after (getStats u) w) = db w.
Proof.
  destruct w as [d t o]. unfold reachable. cbn [outages].
  destruct o as [|[] [|[] [|[] [|[] o]]]];
    cbn [firstn existsb orb]; intros H; try discriminate H;
    split; reflexivity.
Qed.

Lemma getStats_unreachable (u : string) (w : World) :
  ~ reachable 4 w ->
  response (getStats u) w = StorageError /\
  db (after (getStats u) w) = db w.
Proof.
  destruct w as [d t o]. unfold reachable. cbn [outages].
  destruct o as [|[] [|[] [|[] [|[] o]]]];
    cbn [firstn existsb orb]; intros H; try (now destruct H);
    split; reflexivity.
Qed.

(** Both handlers catch what they await: whatever the store does, the
    promise of a handler is fulfilled with a response. *)
Lemma getStats_settles (u : string) (w : World) :
  exists r, fst (getStats u w) = Fulfilled r.
Proof.
  destruct w as [d t o].
  destruct o as [|[] [|[] [|[] [|[] o]]]]; eexists; reflexivity.
Qed.

(** [getStats] never writes. *)
Lemma getStats_db (u : string) (w : World) :
  db (after (getStats u) w) = db w.
Proof.
  destruct w as [d t o].
  destruct o as [|[] [|[] [|[] [|[] o]]]]; reflexivity.
Qed.

(** The validation of line 126 rejects the request before any query. *)
Lemma recordScore_rejected (body : Req.body) (w : World) :
  truthy (Req.userId body) = false \/
  truthy (Req.gameType body) = false \/
  Req.score body = JsUndefined ->
  recordScore body w = (Fulfilled ValidationError, w).
Proof.
  intros H. unfold recordScore, try_catch.
  destruct H as [H|[H|H]]; rewrite H; cbn [negb orb is_undefined];
    rewrite ?orb_true_r; reflexivity.
Qed.

(** Otherwise the three values go to the [INSERT] as they are. *)
Lemma recordScore_forwarded (body : Req.body) (w : World) :
  truthy (Req.userId body) = true ->
  truthy (Req.gameType body) = true ->
  Req.score body <> JsUndefined ->
  recordScore body w =
  try_catch
    (insert_game_score (Req.userId body) (Req.gameType body)
                       (Req.score body) ;;;
     ret Acknowledgment)
    (ret StorageError) w.
Proof.
  intros Hu Hg Hs. unfold recordScore, try_catch.
  rewrite Hu, Hg. cbn [negb orb].
  destruct (Req.score body); try reflexivity. congruence.
Qed.

Lemma validation_decides (body : Req.body) :
  (truthy (Req.userId body) = false \/
   truthy (Req.gameType body) = false \/
   Req.score body = JsUndefined) \/
  (truthy (Req.userId body) = true /\
   truthy (Req.gameType body) = true /\
   Req.score body <> JsUndefined).
Proof.
  destruct (truthy (Req.userId body)); [|now left; left].
  destruct (truthy (Req.gameType body)); [|now left; right; left].
  destruct (Req.score body); try (right; repeat split; discriminate).
  left; right; right; reflexivity.
Qed.

Lemma recordScore_settles (body : Req.body) (w : World) :
  exists r, fst (recordScore body w) = Fulfilled r.
Proof.
  unfold recordScore, try_catch.
  destruct (_ : Async Response) as [[r|] w']; eexists; reflexivity.
Qed.

(** The three ways in which [recordScore] can end. *)
Lemma recordScore_cases (body : Req.body) (w : World) :
  (response (recordScore body) w = ValidationError /\
   after (recordScore body) w = w /\
   (truthy (Req.userId body) = false \/
    truthy (Req.gameType body) = false \/
    Req.score body = JsUndefined))
  \/
  (response (recordScore body) w = StorageError /\
   db (after (recordScore body) w) = db w)
  \/
  (response (recordScore body) w = Acknowledgment /\
   exists u g s,
     user_id_in (Req.userId body) = Some u /\
     game_type_in (Req.gameType body) = Some g /\
     score_in (Req.score body) = Some s /\
     known_user (db w) u = true /\
     reachable 1 w /\
     after (recordScore body) w =
     append_row {| user_id := u; game_type := g; score := s;
                   played_at := now w |} (attempted w)).
Proof.
  destruct (validation_decides body) as [H|(Hu & Hg & Hs)].
  - left. unfold response, after.
    rewrite (recordScore_rejected body w H). auto.
  - right. unfold response, after.
    rewrite (recordScore_forwarded body w Hu Hg Hs).
    destruct w as [d t o]. unfold reachable.
    destruct (user_id_in (Req.userId body)) as [u|] eqn:Eu;
      [destruct (game_type_in (Req.gameType body)) as [g|] eqn:Eg;
       [destruct (score_in (Req.score body)) as [s|] eqn:Es;
        [destruct (known_user d u) eqn:Ek|]|]|];
      destruct o as [|[] o];
      cbv [try_catch bind insert_game_score reach ret hd tl outages db now
           attempted fst snd firstn existsb orb];
      rewrite ?Eu, ?Eg, ?Es; cbv beta iota; rewrite ?Ek;
      try (left; split; reflexivity);
      right; (split; [reflexivity|]);
      exists u, g, s; repeat split; assumption.
Qed.

End Handlers.

(** ** The two backends are lawful *)

Lemma insert_before_equal_perm (r : ScoreRecord) (l : list ScoreRecord) :
  Permutation (r :: l) (insert_before_equal r l).
Proof.
  induction l as [|x l IH]; cbn [insert_before_equal]; [reflexivity|].
  destruct (played_at x <=? played_at r); [reflexivity|].
  rewrite perm_swap. now apply perm_skip.
Qed.

Lemma insert_after_equal_perm (r : ScoreRecord) (l : list ScoreRecord) :
  Permutation (r :: l) (insert_after_equal r l).
Proof.
  induction l as [|x l IH]; cbn [insert_after_equal]; [reflexivity|].
  destruct (played_at x <? played_at r); [reflexivity|].
  rewrite perm_swap. now apply perm_skip.
Qed.

Lemma Forall_newer_weaken (a b : ScoreRecord) (l : list ScoreRecord) :
  played_at b <= played_at a ->
  Forall (newer_or_equal b) l -> Forall (newer_or_equal a) l.
Proof.
  intros Hab. apply Forall_impl. unfold newer_or_equal. intros; lia.
Qed.

Lemma insert_before_equal_sorted (r : ScoreRecord) (l : list ScoreRecord) :
  StronglySorted newer_or_equal l ->
  StronglySorted newer_or_equal (insert_before_equal r l).
Proof.
  induction 1 as [|x l Hs IH Hx]; cbn [insert_before_equal].
  - repeat constructor.
  - destruct (Z.leb_spec (played_at x) (played_at r)) as [Hle|Hlt].
    + constructor; [now constructor|].
      constructor; [exact Hle|]. now apply (Forall_newer_weaken r x).
    + constructor; [exact IH|].
      apply (Permutation_Forall (insert_before_equal_perm r l)).
      constructor; [unfold newer_or_equal; lia | exact Hx].
Qed.

Lemma insert_after_equal_sorted (r : ScoreRecord) (l : list ScoreRecord) :
  StronglySorted newer_or_equal l ->
  StronglySorted newer_or_equal (insert_after_equal r l).
Proof.
  induction 1 as [|x l Hs IH Hx]; cbn [insert_after_equal].
  - repeat constructor.
  - destruct (Z.ltb_spec (played_at x) (played_at r)) as [Hlt|Hle].
    + constructor; [now constructor|].
      constructor; [unfold newer_or_equal; lia|].
      apply (Forall_newer_weaken r x); [lia | exact Hx].
    + constructor; [exact IH|].
      apply (Permutation_Forall (insert_after_equal_perm r l)).
      constructor; [exact Hle | exact Hx].
Qed.

Lemma stable_backend_laws : PostgresLaws stable_backend.
Proof.
  split; try reflexivity; intros rows; cbn [order_by_played_at_desc
    stable_backend]; unfold sort_stable.
  - induction rows as [|r rows IH]; cbn [fold_right]; [constructor|].
    rewrite <- insert_before_equal_perm. now apply perm_skip.
  - induction rows as [|r rows IH]; cbn [fold_right]; [constructor|].
    now apply insert_before_equal_sorted.
Qed.

Lemma newest_first_backend_laws : PostgresLaws newest_first_backend.
Proof.
  split; try reflexivity; intros rows; cbn [order_by_played_at_desc
    newest_first_backend]; unfold sort_newest_insertion_first.
  - induction rows as [|r rows IH]; cbn [fold_right]; [constructor|].
    rewrite <- insert_after_equal_perm. now apply perm_skip.
  - induction rows as [|r rows IH]; cbn [fold_right]; [constructor|].
    now apply insert_after_equal_sorted.
Qed.

(** ** Bookkeeping on worlds and filters *)

Lemma in_firstn {A} (n : nat) (l : list A) (x : A) :
  In x (firstn n l) -> In x l.
Proof.
  intros H. rewrite <- (firstn_skipn n l). apply in_or_app. now left.
Qed.

Lemma reachable_le (m n : nat) (w : World) :
  (m <= n)%nat -> reachable n w -> reachable m w.
Proof.
  unfold reachable. intros Hmn H.
  destruct (existsb (fun down => down) (firstn m (outages w))) eqn:E;
    [|reflexivity].
  apply existsb_exists in E. destruct E as (b & Hin & Hb).
  rewrite <- H. symmetry. apply existsb_exists. exists b. split; [|exact Hb].
  replace m with (Nat.min m n) in Hin by lia.
  rewrite <- firstn_firstn in Hin.
  now apply in_firstn in Hin.
Qed.

Lemma reachable_attempted (n : nat) (w : World) :
  reachable (S n) w -> reachable n (attempted w).
Proof.
  unfold reachable, attempted. cbn [outages].
  destruct (outages w) as [|b o]; cbn [tl firstn existsb].
  - now destruct n.
  - intros H. apply orb_false_iff in H. tauto.
Qed.

Lemma reachable_append_row (n : nat) (r : ScoreRecord) (w : World) :
  reachable n (append_row r w) <-> reachable n w.
Proof. reflexivity. Qed.

Lemma in_where_user (u : string) (rows : list ScoreRecord) (r : ScoreRecord) :
  In r (where_user u rows) <-> In r rows /\ user_id r = u.
Proof.
  unfold where_user. rewrite filter_In, String.eqb_eq. reflexivity.
Qed.

Lemma in_where_user_game (u g : string) (rows : list ScoreRecord)
    (r : ScoreRecord) :
  In r (where_user_game u g rows) <->
  In r rows /\ user_id r = u /\ game_type r = g.
Proof.
  unfold where_user_game.
  rewrite filter_In, andb_true_iff, !String.eqb_eq. reflexivity.
Qed.

Lemma where_user_game_of_where_user (u g : string)
    (rows : list ScoreRecord) :
  where_user_game u g rows =
  filter (fun r => String.eqb (game_type r) g) (where_user u rows).
Proof.
  induction rows as [|r rows IH]; [reflexivity|].
  cbn [where_user_game where_user filter].
  destruct (String.eqb (user_id r) u); cbn [andb filter];
    fold (where_user_game u g rows); fold (where_user u rows);
    now rewrite IH.
Qed.

(** The number of rows [WHERE user_id = $1] keeps is the number of
    occurrences of the user among the [user_id] of the table. *)
Lemma length_where_user (u : string) (rows : list ScoreRecord) :
  List.length (where_user u rows) =
  count_occ string_dec (map user_id rows) u.
Proof.
  induction rows as [|r rows IH]; [reflexivity|].
  cbn [where_user filter map count_occ].
  destruct (String.eqb_spec (user_id r) u) as [E|E];
    destruct (string_dec (user_id r) u) as [E'|E']; try congruence;
    cbn [List.length]; fold (where_user u rows); now rewrite IH.
Qed.

(** The value reported for a [MAX]: the greatest element, or 0. *)
Lemma reported_max (l : list Z) :
  let best := or_zero (parseInt (first_cell [sql_max l])) in
  (l = [] -> best = 0) /\
  (l <> [] -> In best l) /\
  (forall y, In y l -> y <= best).
Proof.
  cbv zeta. rewrite best_of_sql_max. destruct l as [|x rest].
  - repeat split; try congruence. intros y [].
  - destruct (fold_left_max_spec rest x) as [Hin Hle].
    repeat split; [congruence | auto | exact Hle].
Qed.

(** The value reported for a [MIN]: the least element, or 0. *)
Lemma reported_min (l : list Z) :
  let best := or_zero (parseInt (first_cell [sql_min l])) in
  (l = [] -> best = 0) /\
  (l <> [] -> In best l) /\
  (forall y, In y l -> best <= y).
Proof.
  cbv zeta. rewrite best_of_sql_min. destruct l as [|x rest].
  - repeat split; try congruence. intros y [].
  - destruct (fold_left_min_spec rest x) as [Hin Hle].
    repeat split; [congruence | auto | exact Hle].
Qed.

Section WellTypedRequests.

Context {pg : Postgres} {laws : PostgresLaws pg}.

(** A well-typed request for a known user is stored when the store can
    be reached. *)
Lemma recordScore_request (u g : string) (s : Z) (w : World) :
  u <> EmptyString -> g <> EmptyString ->
  known_user (db w) u = true ->
  reachable 1 w ->
  recordScore (request u g s) w =
  (Fulfilled Acknowledgment,
   append_row {| user_id := u; game_type := g; score := s;
                 played_at := now w |} (attempted w)).
Proof.
  intros Hu Hg Hk Hr.
  rewrite recordScore_forwarded.
  - cbn [request Req.userId Req.gameType Req.score].
    unfold reachable in Hr. destruct w as [d t o]. cbn [db outages] in *.
    cbv [try_catch bind insert_game_score reach ret hd tl outages db now
         attempted].
    rewrite user_id_in_string, game_type_in_string, score_in_integer.
    destruct o as [|[] o]; cbn [firstn existsb orb] in Hr;
      try discriminate Hr; cbv beta iota; rewrite Hk; reflexivity.
  - cbn. now destruct (String.eqb_spec u EmptyString).
  - cbn. now destruct (String.eqb_spec g EmptyString).
  - discriminate.
Qed.

End WellTypedRequests.

(* ================================================================== *)
(** * The aggregates of [getStats] *)
(* ================================================================== *)

Section Aggregates.

Context {pg : Postgres} {laws : PostgresLaws pg}.

(** The rows of [game_scores] after two well-typed requests of the same
    known user have been served. *)
Lemma two_requests (u g : string) (s1 s2 : Z) (n : nat) (w : World) :
  u <> EmptyString -> g <> EmptyString ->
  known_user (db w) u = true ->
  reachable (2 + n) w ->
  let w1 := after (recordScore (request u g s1)) w in
  let w2 := after (recordScore (request u g s2)) w1 in
  response (recordScore (request u g s1)) w = Acknowledgment /\
  response (recordScore (request u g s2)) w1 = Acknowledgment /\
  reachable n w2 /\
  game_scores (db w2) =
  (game_scores (db w) ++
    [{| user_id := u; game_type := g; score := s1; played_at := now w |};
     {| user_id := u; game_type := g; score := s2; played_at := now w |}])%list.
Proof.
  intros Hu Hg Hk Hr. cbv zeta. unfold after, response.
  assert (H1 : reachable 1 w) by (apply (reachable_le 1 (2 + n)); [lia|assumption]).
  rewrite (recordScore_request u g s1 w Hu Hg Hk H1). cbn [fst snd].
  assert (Hr1 : reachable (1 + n) (attempted w))
    by (apply reachable_attempted; exact Hr).
  set (w1 := append_row _ (attempted w)).
  assert (H2 : reachable 1 w1)
    by (apply reachable_append_row, (reachable_le 1 (1 + n)); [lia|assumption]).
  rewrite (recordScore_request u g s2 w1 Hu Hg Hk H2). cbn [fst snd].
  repeat split.
  - apply reachable_append_row, reachable_attempted.
    apply reachable_append_row. exact Hr1.
  - cbn [db game_scores append_row attempted w1 now].
    now rewrite <- app_assoc.
Qed.

(** C5.  For every user, when the store can be reached, [getStats]
    reports as [totalGames] the number of score records, of whatever
    game type, whose [user_id] is that user. *)
Theorem total_games_counts_user_records (u : string) (w : World) :
  reachable 4 w ->
  exists s,
    snapshot (response (getStats u) w) = Some s /\
    totalGames s =
    Z.of_nat (count_occ string_dec (map user_id (game_scores (db w))) u).
Proof.
  intros Hr. destruct (getStats_reachable u w Hr) as [-> _].
  eexists. split; [reflexivity|].
  cbn [totalGames]. now rewrite total_of_count, length_where_user.
Qed.

(** C1.  For every user, when the store can be reached, [getStats]
    reports as [bestClickerScore] the maximum score among the user's
    records of game type "clicker": it bounds every such score, it is
    the score of one of them when there is one, and it is 0 when there
    is none.  In particular, once clicker scores 50 then 30 have been
    recorded for a user with no higher clicker score, the report is
    50. *)
Theorem best_clicker_score_is_maximum :
  (forall (u : string) (w : World),
     reachable 4 w ->
     exists s,
       snapshot (response (getStats u) w) = Some s /\
       (forall r, In r (game_scores (db w)) ->
                  user_id r = u -> game_type r = "clicker" ->
                  score r <= bestClickerScore s) /\
       ((exists r, In r (game_scores (db w)) /\
                   user_id r = u /\ game_type r = "clicker") ->
        exists r, In r (game_scores (db w)) /\
                  user_id r = u /\ game_type r = "clicker" /\
                  score r = bestClickerScore s) /\
       ((forall r, In r (game_scores (db w)) ->
                   user_id r = u -> game_type r <> "clicker") ->
        bestClickerScore s = 0))
  /\
  (forall (u : string) (w : World),
     u <> EmptyString ->
     known_user (db w) u = true ->
     reachable 6 w ->
     (forall r, In r (game_scores (db w)) ->
                user_id r = u -> game_type r = "clicker" ->
                score r <= 50) ->
     let w1 := after (recordScore (request u "clicker" 50)) w in
     let w2 := after (recordScore (request u "clicker" 30)) w1 in
     exists s,
       snapshot (response (getStats u) w2) = Some s /\
       bestClickerScore s = 50).
Proof.
  assert (General : forall (u : string) (w : World),
     reachable 4 w ->
     exists s,
       snapshot (response (getStats u) w) = Some s /\
       (forall r, In r (game_scores (db w)) ->
                  user_id r = u -> game_type r = "clicker" ->
                  score r <= bestClickerScore s) /\
       ((exists r, In r (game_scores (db w)) /\
                   user_id r = u /\ game_type r = "clicker") ->
        exists r, In r (game_scores (db w)) /\
                  user_id r = u /\ game_type r = "clicker" /\
                  score r = bestClickerScore s) /\
       ((forall r, In r (game_scores (db w)) ->
                   user_id r = u -> game_type r <> "clicker") ->
        bestClickerScore s = 0)).
  { intros u w Hr. destruct (getStats_reachable u w Hr) as [-> _].
    eexists. split; [reflexivity|]. cbn [bestClickerScore].
    set (mine := where_user_game u "clicker" (game_scores (db w))).
    destruct (reported_max (map score mine)) as (Hnone & Hsome & Hle).
    repeat split.
    - intros r Hin Hu Hg. apply Hle, in_map.
      apply in_where_user_game. auto.
    - intros (r & Hin & Hu & Hg).
      assert (Hr' : In r mine) by (apply in_where_user_game; auto).
      destruct (proj1 (in_map_iff _ _ _) (Hsome ltac:(
        intros E; apply (in_map score) in Hr'; rewrite E in Hr';
        exact Hr'))) as (r' & Hs & Hin').
      apply in_where_user_game in Hin'. exists r'. tauto.
    - intros Hno. apply Hnone.
      destruct mine as [|r rest] eqn:E; [reflexivity|].
      assert (Hin : In r mine) by (rewrite E; now left).
      apply in_where_user_game in Hin. destruct Hin as (Hin & Hu & Hg).
      now destruct (Hno r Hin Hu). }
  split; [exact General|].
  intros u w Hu Hk Hr Hold w1 w2.
  destruct (two_requests u "clicker" 50 30 4 w Hu ltac:(discriminate)
              Hk Hr) as (_ & _ & Hr2 & Hrows).
  fold w1 w2 in Hr2, Hrows.
  destruct (General u w2 Hr2) as (s & Hs & Hle & Hex & _).
  exists s. split; [exact Hs|].
  apply Z.le_antisymm.
  - destruct Hex as (r & Hin & Hru & Hrg & <-).
    + eexists. rewrite Hrows. split; [apply in_or_app; right; now left|].
      split; reflexivity.
    + rewrite Hrows in Hin. apply in_app_or in Hin.
      destruct Hin as [Hin|[<-|[<-|[]]]]; cbn [score]; try lia.
      now apply Hold.
  - apply (Hle {| user_id := u; game_type := "clicker"; score := 50;
                  played_at := now w |}); try reflexivity.
    rewrite Hrows. apply in_or_app; right; now left.
Qed.

(** C2.  For every user, when the store can be reached, [getStats]
    reports as [bestMemoryMoves] the minimum score among the user's
    records of game type "memory": it is below every such score, it is
    the score of one of them when there is one, and it is 0 when there
    is none.  In particular, once memory scores 12 then 20 have been
    recorded for a user with no lower memory score, the report is 12. *)
Theorem best_memory_moves_is_minimum :
  (forall (u : string) (w : World),
     reachable 4 w ->
     exists s,
       snapshot (response (getStats u) w) = Some s /\
       (forall r, In r (game_scores (db w)) ->
                  user_id r = u -> game_type r = "memory" ->
                  bestMemoryMoves s <= score r) /\
       ((exists r, In r (game_scores (db w)) /\
                   user_id r = u /\ game_type r = "memory") ->
        exists r, In r (game_scores (db w)) /\
                  user_id r = u /\ game_type r = "memory" /\
                  score r = bestMemoryMoves s) /\
       ((forall r, In r (game_scores (db w)) ->
                   user_id r = u -> game_type r <> "memory") ->
        bestMemoryMoves s = 0))
  /\
  (forall (u : string) (w : World),
     u <> EmptyString ->
     known_user (db w) u = true ->
     reachable 6 w ->
     (forall r, In r (game_scores (db w)) ->
                user_id r = u -> game_type r = "memory" ->
                12 <= score r) ->
     let w1 := after (recordScore (request u "memory" 12)) w in
     let w2 := after (recordScore (request u "memory" 20)) w1 in
     exists s,
       snapshot (response (getStats u) w2) = Some s /\
       bestMemoryMoves s = 12).
Proof.
  assert (General : forall (u : string) (w : World),
     reachable 4 w ->
     exists s,
       snapshot (response (getStats u) w) = Some s /\
       (forall r, In r (game_scores (db w)) ->
                  user_id r = u -> game_type r = "memory" ->
                  bestMemoryMoves s <= score r) /\
       ((exists r, In r (game_scores (db w)) /\
                   user_id r = u /\ game_type r = "memory") ->
        exists r, In r (game_scores (db w)) /\
                  user_id r = u /\ game_type r = "memory" /\
                  score r = bestMemoryMoves s) /\
       ((forall r, In r (game_scores (db w)) ->
                   user_id r = u -> game_type r <> "memory") ->
        bestMemoryMoves s = 0)).
  { intros u w Hr. destruct (getStats_reachable u w Hr) as [-> _].
    eexists. split; [reflexivity|]. cbn [bestMemoryMoves].
    set (mine := where_user_game u "memory" (game_scores (db w))).
    destruct (reported_min (map score mine)) as (Hnone & Hsome & Hle).
    repeat split.
    - intros r Hin Hu Hg. apply Hle, in_map.
      apply in_where_user_game. auto.
    - intros (r & Hin & Hu & Hg).
      assert (Hr' : In r mine) by (apply in_where_user_game; auto).
      assert (Hne : map score mine <> []).
      { intros E. apply (in_map score) in Hr'. now rewrite E in Hr'. }
      apply Hsome, in_map_iff in Hne. destruct Hne as (r' & Hs & Hin').
      apply in_where_user_game in Hin'. exists r'. tauto.
    - intros Hno. apply Hnone.
      destruct mine as [|r rest] eqn:E; [reflexivity|].
      assert (Hin : In r mine) by (rewrite E; now left).
      apply in_where_user_game in Hin. destruct Hin as (Hin & Hu & Hg).
      now destruct (Hno r Hin Hu). }
  split; [exact General|].
  intros u w Hu Hk Hr Hold w1 w2.
  destruct (two_requests u "memory" 12 20 4 w Hu ltac:(discriminate)
              Hk Hr) as (_ & _ & Hr2 & Hrows).
  fold w1 w2 in Hr2, Hrows.
  destruct (General u w2 Hr2) as (s & Hs & Hle & Hex & _).
  exists s. split; [exact Hs|].
  apply Z.le_antisymm.
  - apply (Hle {| user_id := u; game_type := "memory"; score := 12;
                  played_at := now w |}); try reflexivity.
    rewrite Hrows. apply in_or_app; right; now left.
  - destruct Hex as (r & Hin & Hru & Hrg & <-).
    + eexists. rewrite Hrows. split; [apply in_or_app; right; now left|].
      split; reflexivity.
    + rewrite Hrows in Hin. apply in_app_or in Hin.
      destruct Hin as [Hin|[<-|[<-|[]]]]; cbn [score]; try lia.
      now apply Hold.
Qed.

End Aggregates.

(* ================================================================== *)
(** * Statistics for any user identifier *)
(* ================================================================== *)

Lemma order_by_laws_of_postgres (pg : Postgres) :
  PostgresLaws pg -> OrderByLaws pg.
Proof.
  intros laws. split; [apply order_by_permutation | apply order_by_sorted].
Qed.

Lemma checked_backend_order : OrderByLaws checked_backend.
Proof.
  destruct stable_backend_laws as [_ _ _ Hp Hs]. split; assumption.
Qed.

Section StatsOfAnyUser.

Context {pg : Postgres}.

(** When the store reads the bound text as the identifier [v], the
    handler is [getStats] at [v]. *)
Lemma getStats_bound_accepted (u v : string) (w : World) :
  user_id_in (JsString u) = Some v ->
  getStats_bound u w = getStats v w.
Proof.
  intros H. unfold getStats_bound, getStats, with_user_id.
  rewrite H. reflexivity.
Qed.

(** When the store refuses the bound text, the first query is rejected
    and the handler answers from its [catch]. *)
Lemma getStats_bound_refused (u : string) (w : World) :
  user_id_in (JsString u) = None ->
  getStats_bound u w = (Fulfilled StorageError, attempted w).
Proof.
  intros H. unfold getStats_bound, with_user_id. rewrite H.
  cbv [try_catch bind reach ret].
  destruct (hd false (outages w)); reflexivity.
Qed.

Context {ord : OrderByLaws pg}.

(** C6, as amended.  [getStats] looks no user up.  Whoever is registered,
    for every string that the store reads as a user identifier it answers
    with a snapshot as soon as the store can be reached, and for an
    identifier without any record the snapshot is
    [{totalGames: 0, bestClickerScore: 0, bestMemoryMoves: 0,
      recentGames: []}].  A string that the store refuses as a parameter
    is answered with the [StorageError], and nothing is written. *)
Theorem stats_need_no_registered_user (u : string) (w : World) :
  (forall v : string,
     user_id_in (JsString u) = Some v ->
     reachable 4 w ->
     (exists s, response (getStats_bound u) w = res_json (StatsJson s)) /\
     ((forall r, In r (game_scores (db w)) -> user_id r <> v) ->
      response (getStats_bound u) w =
      res_json (StatsJson {| totalGames := 0;
                             bestClickerScore := 0;
                             bestMemoryMoves := 0;
                             recentGames := [] |})))
  /\
  (user_id_in (JsString u) = None ->
   response (getStats_bound u) w = StorageError /\
   snapshot (response (getStats_bound u) w) = None /\
   db (after (getStats_bound u) w) = db w).
Proof.
  split.
  - intros v Hv Hr. unfold response.
    rewrite (getStats_bound_accepted u v w Hv).
    destruct (getStats_reachable v w Hr) as [E _]. unfold response in E.
    rewrite E. split; [eexists; reflexivity|].
    intros Hno.
    assert (E1 : where_user v (game_scores (db w)) = []).
    { destruct (where_user v (game_scores (db w))) as [|r rest] eqn:F;
        [reflexivity|].
      assert (Hin : In r (where_user v (game_scores (db w))))
        by (rewrite F; now left).
      apply in_where_user in Hin. destruct Hin as [Hin Hu].
      now destruct (Hno r Hin). }
    rewrite !where_user_game_of_where_user, E1.
    rewrite (Permutation_nil (sorted_rows_permutation [])).
    reflexivity.
  - intros Hv. unfold response, after.
    rewrite (getStats_bound_refused u w Hv). repeat split.
Qed.

End StatsOfAnyUser.

(* ================================================================== *)
(** * Validation and recording *)
(* ================================================================== *)

Lemma truthy_false_iff (v : JsValue) :
  truthy v = false <->
  v = JsUndefined \/ v = JsNull \/ v = JsBool false \/
  v = JsNumber 0 \/ v = JsString EmptyString.
Proof.
  split.
  - destruct v as [| |[]|z| |s|]; cbn [truthy]; intros H;
      try discriminate H; auto.
    + apply negb_false_iff, Z.eqb_eq in H. subst. auto 6.
    + apply negb_false_iff, String.eqb_eq in H. subst. auto 6.
  - intros [->|[->|[->|[->| ->]]]]; reflexivity.
Qed.

Lemma where_user_app (u : string) (l1 l2 : list ScoreRecord) :
  where_user u (l1 ++ l2) = (where_user u l1 ++ where_user u l2)%list.
Proof. apply filter_app. Qed.

Section Recording.

Context {pg : Postgres} {laws : PostgresLaws pg}.

(** The count reported after one more row of the user is one more. *)
Lemma total_after_append (u : string) (r : ScoreRecord) (w w' : World) :
  user_id r = u ->
  game_scores (db w') = (game_scores (db w) ++ [r])%list ->
  reachable 4 w -> reachable 4 w' ->
  exists s s',
    snapshot (response (getStats u) w) = Some s /\
    snapshot (response (getStats u) w') = Some s' /\
    totalGames s' = totalGames s + 1.
Proof.
  intros Hu Hrows Hr Hr'.
  destruct (getStats_reachable u w Hr) as [-> _].
  destruct (getStats_reachable u w' Hr') as [-> _].
  eexists. eexists. split; [reflexivity|]. split; [reflexivity|].
  cbn [totalGames]. rewrite !total_of_count, Hrows, where_user_app.
  rewrite length_app. cbn [where_user filter].
  rewrite <- Hu, String.eqb_refl. cbn [List.length]. lia.
Qed.

(** C7.  A successful [recordScore] appends exactly one record, and a
    following [getStats] for the recorded user reports [totalGames]
    increased by exactly 1; every well-typed request of a known user is
    successful when the store can be reached.  Nothing is deduplicated:
    two successful calls with identical arguments append two records. *)
Theorem record_score_appends_one_record :
  (forall (body : Req.body) (w : World),
     reachable 5 w ->
     response (recordScore body) w = Acknowledgment ->
     let w' := after (recordScore body) w in
     exists r s s',
       user_id_in (Req.userId body) = Some (user_id r) /\
       game_type_in (Req.gameType body) = Some (game_type r) /\
       score_in (Req.score body) = Some (score r) /\
       game_scores (db w') = (game_scores (db w) ++ [r])%list /\
       snapshot (response (getStats (user_id r)) w) = Some s /\
       snapshot (response (getStats (user_id r)) w') = Some s' /\
       totalGames s' = totalGames s + 1)
  /\
  (forall (u g : string) (z : Z) (w : World),
     u <> EmptyString -> g <> EmptyString ->
     known_user (db w) u = true ->
     reachable 1 w ->
     response (recordScore (request u g z)) w = Acknowledgment)
  /\
  (forall (body : Req.body) (w : World),
     reachable 6 w ->
     let w1 := after (recordScore body) w in
     let w2 := after (recordScore body) w1 in
     response (recordScore body) w = Acknowledgment ->
     response (recordScore body) w1 = Acknowledgment ->
     exists r1 r2 s s2,
       game_scores (db w2) = (game_scores (db w) ++ [r1; r2])%list /\
       user_id r1 = user_id r2 /\
       game_type r1 = game_type r2 /\
       score r1 = score r2 /\
       snapshot (response (getStats (user_id r1)) w) = Some s /\
       snapshot (response (getStats (user_id r1)) w2) = Some s2 /\
       totalGames s2 = totalGames s + 2).
Proof.
  assert (One : forall (body : Req.body) (n : nat) (w : World),
     reachable (S n) w ->
     response (recordScore body) w = Acknowledgment ->
     exists r,
       user_id_in (Req.userId body) = Some (user_id r) /\
       game_type_in (Req.gameType body) = Some (game_type r) /\
       score_in (Req.score body) = Some (score r) /\
       reachable n (after (recordScore body) w) /\
       game_scores (db (after (recordScore body) w)) =
       (game_scores (db w) ++ [r])%list).
  { intros body n w Hr Hresp.
    destruct (recordScore_cases body w)
      as [(H & _)|[(H & _)|(_ & u & g & s & Hu & Hg & Hs & _ & _ & E)]];
      [rewrite H in Hresp; discriminate Hresp ..|].
    eexists {| user_id := u; game_type := g; score := s;
               played_at := now w |}.
    rewrite E. repeat split; try assumption.
    apply reachable_append_row, reachable_attempted. exact Hr. }
  split; [|split].
  - intros body w Hr Hresp w'.
    destruct (One body 4%nat w Hr Hresp) as (r & Hu & Hg & Hs & Hr' & Hrows).
    assert (Hr4 : reachable 4 w)
      by (apply (reachable_le 4 5); [lia|assumption]).
    destruct (total_after_append (user_id r) r w w' eq_refl Hrows Hr4 Hr')
      as (s & s' & Hst & Hst' & Htot).
    exists r, s, s'. repeat split; assumption.
  - intros u g z w Hu Hg Hk Hr. unfold response.
    now rewrite (recordScore_request u g z w Hu Hg Hk Hr).
  - intros body w Hr w1 w2 Hresp1 Hresp2.
    destruct (One body 5%nat w Hr Hresp1)
      as (r1 & Hu1 & Hg1 & Hs1 & Hr1 & Hrows1).
    fold w1 in Hr1, Hrows1.
    destruct (One body 4%nat w1 Hr1 Hresp2)
      as (r2 & Hu2 & Hg2 & Hs2 & Hr2 & Hrows2).
    fold w2 in Hr2, Hrows2.
    assert (Hr4 : reachable 4 w)
      by (apply (reachable_le 4 6); [lia|assumption]).
    assert (Hr41 : reachable 4 w1)
      by (apply (reachable_le 4 5); [lia|assumption]).
    assert (Euser : user_id r1 = user_id r2) by congruence.
    destruct (total_after_append (user_id r1) r1 w w1 eq_refl Hrows1
                Hr4 Hr41) as (s & s1 & Hst & Hst1 & Htot1).
    destruct (total_after_append (user_id r1) r2 w1 w2 (eq_sym Euser)
                Hrows2 Hr41 Hr2) as (s1' & s2 & Hst1' & Hst2 & Htot2).
    exists r1, r2, s, s2.
    rewrite Hrows2, Hrows1, <- app_assoc.
    repeat split; try congruence.
    rewrite Hst1 in Hst1'. injection Hst1' as <-. lia.
Qed.

(** C10.  The validation of [recordScore] is JavaScript truthiness for
    [userId] and [gameType] and a comparison with [undefined] for
    [score].  The falsy values are exactly [undefined], [null],
    [false], [0] and the empty string; the answer is the
    [ValidationError] exactly when [userId] is falsy, [gameType] is falsy
    or [score] is [undefined], and it is then given before the store is
    contacted; with both truthy, any [score] other than [undefined]
    (null, an empty string, a fraction, ...) passes the validation and
    the three values are handed to the [INSERT] as they are. *)
Theorem validation_is_by_truthiness :
  (forall v : JsValue,
     truthy v = false <->
     v = JsUndefined \/ v = JsNull \/ v = JsBool false \/
     v = JsNumber 0 \/ v = JsString EmptyString)
  /\
  (forall (body : Req.body) (w : World),
     response (recordScore body) w = ValidationError <->
     truthy (Req.userId body) = false \/
     truthy (Req.gameType body) = false \/
     Req.score body = JsUndefined)
  /\
  (forall (body : Req.body) (w : World),
     truthy (Req.userId body) = false \/
     truthy (Req.gameType body) = false \/
     Req.score body = JsUndefined ->
     recordScore body w = (Fulfilled ValidationError, w))
  /\
  (forall (body : Req.body) (w : World),
     truthy (Req.userId body) = true ->
     truthy (Req.gameType body) = true ->
     Req.score body <> JsUndefined ->
     response (recordScore body) w <> ValidationError /\
     recordScore body w =
     try_catch
       (insert_game_score (Req.userId body) (Req.gameType body)
                          (Req.score body) ;;;
        ret Acknowledgment)
       (ret StorageError) w)
  /\
  (forall (u g : string) (s : JsValue) (w : World),
     u <> EmptyString -> g <> EmptyString ->
     s = JsNull \/ s = JsString EmptyString \/ s = JsFraction \/
     s = JsBool true \/ s = JsObject ->
     recordScore {| Req.userId := JsString u; Req.gameType := JsString g;
                    Req.score := s |} w =
     try_catch
       (insert_game_score (JsString u) (JsString g) s ;;;
        ret Acknowledgment)
       (ret StorageError) w).
Proof.
  split; [exact truthy_false_iff|]. split; [|split; [|split]].
  - intros body w. split.
    + intros Hresp.
      destruct (recordScore_cases body w)
        as [(_ & _ & H)|[(H & _)|(H & _)]];
        [exact H | rewrite H in Hresp; discriminate Hresp ..].
    + intros H. unfold response.
      now rewrite (recordScore_rejected body w H).
  - intros body w H. now apply recordScore_rejected.
  - intros body w Hu Hg Hs. split.
    + destruct (recordScore_cases body w)
        as [(_ & _ & [H|[H|H]])|[(H & _)|(H & _)]];
        try congruence; rewrite H; discriminate.
    + now apply recordScore_forwarded.
  - intros u g s w Hu Hg Hs.
    apply (recordScore_forwarded
             {| Req.userId := JsString u; Req.gameType := JsString g;
                Req.score := s |}); cbn.
    + now destruct (String.eqb_spec u EmptyString).
    + now destruct (String.eqb_spec g EmptyString).
    + destruct Hs as [->|[->|[->|[->| ->]]]]; discriminate.
Qed.

End Recording.

Section Validation.

Context {pg : Postgres}.

(** A request of three values that the store accepts as they are, for a
    known user, is stored when the store can be reached. *)
Lemma recordScore_accepted (u g : string) (z : Z) (w : World) :
  u <> EmptyString -> g <> EmptyString ->
  user_id_in (JsString u) = Some u ->
  game_type_in (JsString g) = Some g ->
  score_in (JsNumber z) = Some z ->
  known_user (db w) u = true ->
  reachable 1 w ->
  recordScore (request u g z) w =
  (Fulfilled Acknowledgment,
   append_row {| user_id := u; game_type := g; score := z;
                 played_at := now w |} (attempted w)).
Proof.
  intros Hu Hg Eu Eg Ez Hk Hr.
  rewrite recordScore_forwarded.
  - cbn [request Req.userId Req.gameType Req.score].
    unfold reachable in Hr. destruct w as [d t o]. cbn [db outages] in *.
    cbv [try_catch bind insert_game_score reach ret hd tl outages db now
         attempted].
    rewrite Eu, Eg, Ez.
    destruct o as [|[] o]; cbn [firstn existsb orb] in Hr;
      try discriminate Hr; cbv beta iota; rewrite Hk; reflexivity.
  - cbn. now destruct (String.eqb_spec u EmptyString).
  - cbn. now destruct (String.eqb_spec g EmptyString).
  - discriminate.
Qed.

Context {ord : OrderByLaws pg}.

(** C3, as amended.  [recordScore] answers the [ValidationError] exactly
    when [userId] or [gameType] is falsy ([undefined], [null], [false],
    [0] or the empty string) or [score] is absent; on a request whose
    properties are absent or of the type the data model gives them, that
    is exactly when [userId] or [gameType] is missing or empty or [score]
    is absent.  The integer 0 is a present score: for a known user, with
    values the store accepts and the store reachable, the call is
    acknowledged, the record with score 0 is in the ledger, the next
    [getStats] counts it, and lists it among the recent games when the
    user had fewer than ten records.  An absent score is answered with
    the [ValidationError]. *)
Theorem validation_error_iff_falsy_or_absent :
  (forall (body : Req.body) (w : World),
     response (recordScore body) w = ValidationError <->
     truthy (Req.userId body) = false \/
     truthy (Req.gameType body) = false \/
     Req.score body = JsUndefined)
  /\
  (forall (body : Req.body) (w : World),
     string_or_absent (Req.userId body) ->
     string_or_absent (Req.gameType body) ->
     integer_or_absent (Req.score body) ->
     (response (recordScore body) w = ValidationError <->
      missing_or_empty (Req.userId body) \/
      missing_or_empty (Req.gameType body) \/
      Req.score body = JsUndefined))
  /\
  (forall (u g : string) (w : World),
     u <> EmptyString -> g <> EmptyString ->
     user_id_in (JsString u) = Some u ->
     game_type_in (JsString g) = Some g ->
     score_in (JsNumber 0) = Some 0 ->
     known_user (db w) u = true ->
     reachable 5 w ->
     let w' := after (recordScore (request u g 0)) w in
     let r := {| user_id := u; game_type := g; score := 0;
                 played_at := now w |} in
     response (recordScore (request u g 0)) w = Acknowledgment /\
     In r (game_scores (db w')) /\
     exists s s',
       snapshot (response (getStats u) w) = Some s /\
       snapshot (response (getStats u) w') = Some s' /\
       totalGames s' = totalGames s + 1 /\
       (totalGames s < 10 -> In (recent_columns r) (recentGames s')))
  /\
  (forall (u g : JsValue) (w : World),
     recordScore {| Req.userId := u; Req.gameType := g;
                    Req.score := JsUndefined |} w =
     (Fulfilled ValidationError, w)).
Proof.
  assert (Exact : forall (body : Req.body) (w : World),
     response (recordScore body) w = ValidationError <->
     truthy (Req.userId body) = false \/
     truthy (Req.gameType body) = false \/
     Req.score body = JsUndefined).
  { intros body w. split.
    - intros Hresp.
      destruct (recordScore_cases body w)
        as [(_ & _ & H)|[(H & _)|(H & _)]];
        [exact H | rewrite H in Hresp; discriminate Hresp ..].
    - intros H. unfold response.
      now rewrite (recordScore_rejected body w H). }
  split; [exact Exact|]. split; [|split].
  - intros body w Tu Tg Ts. rewrite Exact. unfold missing_or_empty.
    rewrite !truthy_false_iff.
    destruct Tu as [->|[su ->]], Tg as [->|[sg ->]];
      split; intros H; auto;
      repeat match goal with
             | H : _ \/ _ |- _ => destruct H
             | H : JsString _ = _ |- _ => try discriminate H
             end; auto 10.
  - intros u g w Hu Hg Eu Eg Ez Hk Hr w' r.
    assert (H1 : reachable 1 w)
      by (apply (reachable_le 1 5); [lia|assumption]).
    assert (E := recordScore_accepted u g 0 w Hu Hg Eu Eg Ez Hk H1).
    assert (Hrows : game_scores (db w') = (game_scores (db w) ++ [r])%list).
    { unfold w', after. rewrite E. reflexivity. }
    assert (Hr' : reachable 4 w').
    { unfold w', after. rewrite E. cbn [snd].
      apply reachable_append_row, reachable_attempted. exact Hr. }
    assert (Hr4 : reachable 4 w)
      by (apply (reachable_le 4 5); [lia|assumption]).
    split; [unfold response; now rewrite E|].
    split; [rewrite Hrows; apply in_or_app; right; now left|].
    destruct (getStats_reachable u w Hr4) as [Ew _].
    destruct (getStats_reachable u w' Hr') as [Ew' _].
    rewrite Ew, Ew'. eexists. eexists.
    split; [reflexivity|]. split; [reflexivity|].
    unfold totalGames, recentGames. rewrite !total_of_count.
    assert (Elen : List.length (where_user u (game_scores (db w'))) =
                   S (List.length (where_user u (game_scores (db w))))).
    { rewrite Hrows, where_user_app, length_app.
      cbn [where_user filter r user_id]. rewrite String.eqb_refl.
      cbn [List.length]. lia. }
    split; [lia|]. intros Hfew.
    apply in_map. rewrite firstn_all2.
    + apply (Permutation_in _ (sorted_rows_permutation _)).
      rewrite Hrows, where_user_app. apply in_or_app. right.
      cbn [where_user filter r user_id]. rewrite String.eqb_refl.
      now left.
    + rewrite <- (Permutation_length (sorted_rows_permutation _)). lia.
  - intros u g w. apply recordScore_rejected. auto.
Qed.

End Validation.

(* ================================================================== *)
(** * Failures and the frame of the two operations *)
(* ================================================================== *)

Section Frame.

Context {pg : Postgres}.

(** One event only ever adds rows at the end of the ledger, and never
    touches the registered users. *)
Lemma step_extends (e : Event) (w : World) :
  users (db (step e w)) = users (db w) /\
  exists added,
    game_scores (db (step e w)) = (game_scores (db w) ++ added)%list.
Proof.
  destruct e as [body|u|clock script]; cbn [step].
  - destruct (recordScore_cases body w)
      as [(_ & -> & _)|[(_ & ->)|(_ & r & g & s & _ & _ & _ & _ & _ & ->)]].
    + split; [reflexivity|]. exists []. now rewrite app_nil_r.
    + split; [reflexivity|]. exists []. now rewrite app_nil_r.
    + split; [reflexivity|]. eexists. reflexivity.
  - rewrite getStats_db. split; [reflexivity|].
    exists []. now rewrite app_nil_r.
  - split; [reflexivity|]. exists []. now rewrite app_nil_r.
Qed.

Lemma run_extends (events : list Event) (w : World) :
  users (db (run events w)) = users (db w) /\
  exists added,
    game_scores (db (run events w)) = (game_scores (db w) ++ added)%list.
Proof.
  revert w. induction events as [|e events IH]; intros w; cbn [run fold_left].
  - split; [reflexivity|]. exists []. now rewrite app_nil_r.
  - destruct (IH (step e w)) as (Hu & added & Hrows).
    destruct (step_extends e w) as (Hu1 & added1 & Hrows1).
    fold (run events (step e w)).
    split; [congruence|].
    exists (added1 ++ added)%list.
    now rewrite Hrows, Hrows1, app_assoc.
Qed.

(** C8.  Both operations are all-or-nothing.  [recordScore] ends in an
    acknowledgment, a [ValidationError] or a [StorageError], and in the
    two failing cases the database is as it was.  When one of the four
    reads of [getStats] is rejected the answer is the [StorageError],
    which carries no snapshot, and the database is as it was; an answer
    that carries a snapshot comes from four successful reads. *)
Theorem failed_operations_change_nothing :
  (forall (body : Req.body) (w : World),
     response (recordScore body) w = Acknowledgment \/
     response (recordScore body) w = ValidationError \/
     response (recordScore body) w = StorageError)
  /\
  (forall (body : Req.body) (w : World),
     response (recordScore body) w = ValidationError \/
     response (recordScore body) w = StorageError ->
     db (after (recordScore body) w) = db w)
  /\
  (forall (u : string) (w : World),
     ~ reachable 4 w ->
     response (getStats u) w = StorageError /\
     snapshot (response (getStats u) w) = None /\
     db (after (getStats u) w) = db w)
  /\
  (forall (u : string) (w : World),
     snapshot (response (getStats u) w) <> None ->
     reachable 4 w).
Proof.
  split; [|split; [|split]].
  - intros body w.
    destruct (recordScore_cases body w) as [(H & _)|[(H & _)|(H & _)]];
      auto.
  - intros body w Hfail.
    destruct (recordScore_cases body w) as [(_ & -> & _)|[(_ & H)|(H & _)]].
    + reflexivity.
    + exact H.
    + rewrite H in Hfail. destruct Hfail as [Hf|Hf]; discriminate Hf.
  - intros u w Hdown.
    destruct (getStats_unreachable u w Hdown) as [-> Hdb].
    repeat split. exact Hdb.
  - intros u w Hsnap. unfold reachable.
    destruct (existsb (fun down => down) (firstn 4 (outages w))) eqn:E;
      [|reflexivity].
    destruct (getStats_unreachable u w) as [H _].
    + unfold reachable. rewrite E. discriminate.
    + rewrite H in Hsnap. now destruct Hsnap.
Qed.

(** C9.  Through any sequence of [recordScore] and [getStats] calls,
    interleaved with changes of the environment, the rows already in
    the ledger stay where they are and as they are: the ledger after
    the sequence is the ledger before it followed by the rows added.
    [getStats] writes nothing, and a [recordScore] either writes
    nothing or, when acknowledged, adds one row at the end. *)
Theorem written_records_never_change :
  (forall (events : list Event) (w : World),
     exists added,
       game_scores (db (run events w)) =
       (game_scores (db w) ++ added)%list)
  /\
  (forall (events : list Event) (w : World) (i : nat) (r : ScoreRecord),
     nth_error (game_scores (db w)) i = Some r ->
     nth_error (game_scores (db (run events w))) i = Some r)
  /\
  (forall (u : string) (w : World),
     db (after (getStats u) w) = db w)
  /\
  (forall (body : Req.body) (w : World),
     (response (recordScore body) w <> Acknowledgment /\
      db (after (recordScore body) w) = db w)
     \/
     (response (recordScore body) w = Acknowledgment /\
      users (db (after (recordScore body) w)) = users (db w) /\
      exists r,
        game_scores (db (after (recordScore body) w)) =
        (game_scores (db w) ++ [r])%list)).
Proof.
  split; [|split; [|split]].
  - intros events w. apply run_extends.
  - intros events w i r Hi.
    destruct (run_extends events w) as (_ & added & ->).
    rewrite nth_error_app1; [exact Hi|].
    apply nth_error_Some. congruence.
  - apply getStats_db.
  - intros body w.
    destruct (recordScore_cases body w)
      as [(H & -> & _)|[(H & Hdb)|(H & r & g & s & _ & _ & _ & _ & _ & E)]].
    + left. split; [rewrite H; discriminate | reflexivity].
    + left. split; [rewrite H; discriminate | exact Hdb].
    + right. rewrite E. split; [exact H|]. split; [reflexivity|].
      eexists. reflexivity.
Qed.

End Frame.

(* ================================================================== *)
(** * Recent games *)
(* ================================================================== *)

Lemma sorted_app_cross (l1 l2 : list ScoreRecord) :
  StronglySorted newer_or_equal (l1 ++ l2) ->
  forall a b, In a l1 -> In b l2 -> played_at b <= played_at a.
Proof.
  induction l1 as [|x l1 IH]; cbn [app]; intros Hs a b Ha Hb; [now destruct Ha|].
  apply StronglySorted_inv in Hs. destruct Hs as [Hs Hx].
  destruct Ha as [<-|Ha].
  - rewrite Forall_forall in Hx. apply Hx, in_or_app. now right.
  - now apply (IH Hs a b).
Qed.

(** Two listings by [played_at] descending of the same rows are the same
    listing when rows played at the same time are the same row. *)
Lemma sorted_listing_unique (l1 l2 : list ScoreRecord) :
  Permutation l1 l2 ->
  StronglySorted newer_or_equal l1 ->
  StronglySorted newer_or_equal l2 ->
  (forall a b, In a l1 -> In b l1 -> played_at a = played_at b -> a = b) ->
  l1 = l2.
Proof.
  revert l2. induction l1 as [|a l1 IH]; intros l2 Hp Hs1 Hs2 Hties.
  - now apply Permutation_nil in Hp.
  - destruct l2 as [|b l2];
      [now apply Permutation_sym, Permutation_nil in Hp|].
    apply StronglySorted_inv in Hs1, Hs2.
    destruct Hs1 as [Hs1 Ha], Hs2 as [Hs2 Hb].
    rewrite Forall_forall in Ha, Hb.
    assert (Hab : a = b).
    { assert (Hin_a : In a (b :: l2))
        by (apply (Permutation_in _ Hp); now left).
      assert (Hin_b : In b (a :: l1))
        by (apply (Permutation_in _ (Permutation_sym Hp)); now left).
      destruct Hin_a as [E|Hin_a]; [now symmetry|].
      destruct Hin_b as [E|Hin_b]; [exact E|].
      apply Hties; [now left | now right |].
      specialize (Ha b Hin_b). specialize (Hb a Hin_a).
      unfold newer_or_equal in Ha, Hb. lia. }
    subst b. f_equal.
    apply IH; try assumption.
    + now apply Permutation_cons_inv in Hp.
    + intros x y Hx Hy. apply Hties; now right.
Qed.

(** On a ledger whose timestamps never decrease from one insertion to
    the next, the listing the specification describes is the ledger read
    backwards. *)
Lemma insert_after_equal_oldest (r : ScoreRecord) (l : list ScoreRecord) :
  Forall (fun x => played_at r <= played_at x) l ->
  insert_after_equal r l = (l ++ [r])%list.
Proof.
  induction 1 as [|x l Hx Hl IH]; cbn [insert_after_equal app]; [reflexivity|].
  destruct (Z.ltb_spec (played_at x) (played_at r)) as [Hlt|_]; [lia|].
  now rewrite IH.
Qed.

Lemma specified_listing_of_monotone_ledger (rows : list ScoreRecord) :
  StronglySorted (fun a b => played_at a <= played_at b) rows ->
  sort_newest_insertion_first rows = rev rows.
Proof.
  unfold sort_newest_insertion_first.
  induction 1 as [|r rows Hs IH Hr]; cbn [fold_right rev]; [reflexivity|].
  rewrite IH. apply insert_after_equal_oldest.
  rewrite Forall_forall in Hr |- *. intros x Hx.
  apply Hr. now apply in_rev.
Qed.

Section RecentGames.

Context {pg : Postgres} {laws : PostgresLaws pg}.

(** C4, as amended.  When the store can be reached, [recentGames] is
    the first ten entries of a listing of all the user's records by
    [played_at] descending: it has at most ten entries, exactly ten
    when the user has eleven records or more, and no record left out
    was played later than a record listed.  The order of records played
    at the same time is the backend's; when no two distinct records of
    the user were played at the same time, the list is the one the
    specification describes. *)
Theorem recent_games_are_the_latest_ten (u : string) (w : World) :
  reachable 4 w ->
  let mine := where_user u (game_scores (db w)) in
  exists s listing,
    snapshot (response (getStats u) w) = Some s /\
    Permutation mine listing /\
    StronglySorted newer_or_equal listing /\
    recentGames s = map recent_columns (firstn 10 listing) /\
    (List.length (recentGames s) <= 10)%nat /\
    List.length (recentGames s) = Nat.min 10 (List.length mine) /\
    ((11 <= List.length mine)%nat ->
     List.length (recentGames s) = 10%nat) /\
    (forall a b, In a (firstn 10 listing) -> In b (skipn 10 listing) ->
                 played_at b <= played_at a) /\
    ((forall a b, In a mine -> In b mine ->
                  played_at a = played_at b -> a = b) ->
     recentGames s = recent_games_as_specified u (db w)).
Proof.
  intros Hr mine.
  destruct (getStats_reachable u w Hr) as [-> _].
  fold mine.
  assert (Hp := order_by_permutation mine).
  assert (Hs := order_by_sorted mine).
  assert (Hlen : List.length
                   (map recent_columns
                      (firstn 10 (order_by_played_at_desc mine))) =
                 Nat.min 10 (List.length mine)).
  { now rewrite length_map, length_firstn, (Permutation_length Hp). }
  eexists. exists (order_by_played_at_desc mine).
  split; [reflexivity|]. unfold recentGames.
  repeat split; try assumption.
  - rewrite Hlen. apply Nat.le_min_l.
  - intros H11. rewrite Hlen. lia.
  - apply sorted_app_cross. now rewrite firstn_skipn.
  - intros Hties. unfold recent_games_as_specified. fold mine.
    do 2 f_equal.
    destruct newest_first_backend_laws as [_ _ _ Hp' Hs'].
    specialize (Hp' mine). specialize (Hs' mine).
    cbn [order_by_played_at_desc newest_first_backend] in Hp', Hs'.
    apply sorted_listing_unique; try assumption.
    + now rewrite <- Hp.
    + intros a b Ha Hb.
      apply Hties; now apply (Permutation_in _ (Permutation_sym Hp)).
Qed.

End RecentGames.

(** C4, as the specification states it, fails.  On a backend whose sort
    is stable, two records of one user written within the same tick of
    the clock are listed in the order of their insertion, the older
    first, whereas the specification asks for the most recently inserted
    first. *)
Lemma recent_games_tie_order_is_the_backends :
  PostgresLaws stable_backend /\
  reachable 4 tie_world /\
  game_scores (db tie_world) =
    [{| user_id := "ada"; game_type := "clicker"; score := 1;
        played_at := 1000 |};
     {| user_id := "ada"; game_type := "memory"; score := 2;
        played_at := 1000 |}] /\
  exists s,
    snapshot (response (getStats (pg := stable_backend) "ada") tie_world) =
      Some s /\
    recentGames s =
      [{| rg_game_type := "clicker"; rg_score := 1; rg_played_at := 1000 |};
       {| rg_game_type := "memory"; rg_score := 2; rg_played_at := 1000 |}] /\
    recent_games_as_specified "ada" (db tie_world) =
      [{| rg_game_type := "memory"; rg_score := 2; rg_played_at := 1000 |};
       {| rg_game_type := "clicker"; rg_score := 1; rg_played_at := 1000 |}] /\
    recentGames s <> recent_games_as_specified "ada" (db tie_world).
Proof.
  split; [exact stable_backend_laws|].
  split; [reflexivity|]. split; [reflexivity|].
  eexists. split; [reflexivity|]. split; [reflexivity|].
  split; [reflexivity|]. discriminate.
Qed.

(* ================================================================== *)
(** * The theorems at work on concrete worlds *)
(* ================================================================== *)

Lemma best_clicker_score_is_maximum_witness :
  let w1 := after (recordScore (pg := stable_backend)
                     (request "ada" "clicker" 50)) fresh_world in
  let w2 := after (recordScore (pg := stable_backend)
                     (request "ada" "clicker" 30)) w1 in
  exists s,
    snapshot (response (getStats (pg := stable_backend) "ada") w2) = Some s /\
    bestClickerScore s = 50.
Proof.
  apply (proj2 (best_clicker_score_is_maximum
                  (pg := stable_backend) (laws := stable_backend_laws))
               "ada" fresh_world).
  - discriminate.
  - reflexivity.
  - reflexivity.
  - intros r [].
Defined.

Lemma best_memory_moves_is_minimum_witness :
  let w1 := after (recordScore (pg := stable_backend)
                     (request "ada" "memory" 12)) fresh_world in
  let w2 := after (recordScore (pg := stable_backend)
                     (request "ada" "memory" 20)) w1 in
  exists s,
    snapshot (response (getStats (pg := stable_backend) "ada") w2) = Some s /\
    bestMemoryMoves s = 12.
Proof.
  apply (proj2 (best_memory_moves_is_minimum
                  (pg := stable_backend) (laws := stable_backend_laws))
               "ada" fresh_world).
  - discriminate.
  - reflexivity.
  - reflexivity.
  - intros r [].
Defined.

Lemma validation_error_iff_falsy_or_absent_witness :
  response (recordScore (pg := checked_backend)
              {| Req.userId := JsString EmptyString;
                 Req.gameType := JsString "clicker";
                 Req.score := JsNumber 0 |}) fresh_world = ValidationError /\
  response (recordScore (pg := checked_backend) (request "ada" "clicker" 0))
           fresh_world = Acknowledgment.
Proof.
  destruct (validation_error_iff_falsy_or_absent
              (pg := checked_backend) (ord := checked_backend_order))
    as (_ & Hiff & Hzero & _).
  split.
  - apply Hiff.
    + right. eexists. reflexivity.
    + right. eexists. reflexivity.
    + right. eexists. reflexivity.
    + left. right. reflexivity.
  - apply (Hzero "ada" "clicker" fresh_world).
    + discriminate.
    + discriminate.
    + reflexivity.
    + reflexivity.
    + reflexivity.
    + reflexivity.
    + reflexivity.
Defined.

(** C3, as the specification states it, fails.  A [userId] that is the
    number 0, or the boolean [false], is present and is not empty, and
    so are the two other fields of the request; yet line 126 answers the
    [ValidationError]. *)
Lemma validation_error_for_a_present_user_id :
  response (recordScore (pg := stable_backend) zero_user_body) fresh_world =
    ValidationError /\
  ~ missing_or_empty (Req.userId zero_user_body) /\
  ~ missing_or_empty (Req.gameType zero_user_body) /\
  Req.score zero_user_body <> JsUndefined /\
  ~ (response (recordScore (pg := stable_backend) zero_user_body)
              fresh_world = ValidationError <->
     missing_or_empty (Req.userId zero_user_body) \/
     missing_or_empty (Req.gameType zero_user_body) \/
     Req.score zero_user_body = JsUndefined) /\
  response (recordScore (pg := stable_backend)
              {| Req.userId := JsBool false;
                 Req.gameType := JsString "clicker";
                 Req.score := JsNumber 5 |}) fresh_world = ValidationError.
Proof.
  assert (Hu : ~ missing_or_empty (Req.userId zero_user_body))
    by (intros [H|H]; discriminate H).
  assert (Hg : ~ missing_or_empty (Req.gameType zero_user_body))
    by (intros [H|H]; discriminate H).
  assert (Hs : Req.score zero_user_body <> JsUndefined) by discriminate.
  split; [reflexivity|]. split; [exact Hu|]. split; [exact Hg|].
  split; [exact Hs|]. split; [|reflexivity].
  intros [H _]. destruct (H eq_refl) as [H'|[H'|H']]; contradiction.
Qed.

Lemma recent_games_are_the_latest_ten_witness :
  reachable 4 tie_world /\
  exists s,
    snapshot (response (getStats (pg := stable_backend) "ada") tie_world) =
      Some s /\
    List.length (recentGames s) = 2%nat.
Proof.
  split; [reflexivity|].
  destruct (recent_games_are_the_latest_ten
              (pg := stable_backend) (laws := stable_backend_laws)
              "ada" tie_world eq_refl)
    as (s & listing & Hs & _ & _ & _ & _ & Hlen & _).
  exists s. split; [exact Hs | exact Hlen].
Defined.

Lemma total_games_counts_user_records_witness :
  reachable 4 tie_world /\
  exists s,
    snapshot (response (getStats (pg := stable_backend) "ada") tie_world) =
      Some s /\
    totalGames s = 2.
Proof.
  split; [reflexivity|].
  destruct (total_games_counts_user_records
              (pg := stable_backend) "ada" tie_world eq_refl)
    as (s & Hs & Htotal).
  exists s. split; [exact Hs | exact Htotal].
Defined.

Lemma stats_need_no_registered_user_witness :
  known_user (db tie_world) "nobody" = false /\
  response (getStats_bound (pg := checked_backend) "nobody") tie_world =
  res_json (StatsJson {| totalGames := 0;
                         bestClickerScore := 0;
                         bestMemoryMoves := 0;
                         recentGames := [] |}).
Proof.
  split; [reflexivity|].
  apply (proj1 (stats_need_no_registered_user
                  (pg := checked_backend) (ord := checked_backend_order)
                  "nobody" tie_world) "nobody" eq_refl eq_refl).
  intros r [<-|[<-|[]]]; discriminate.
Defined.

(** C6, as the specification states it, fails.  PostgreSQL accepts the
    character U+0000 in no text: for the path segment [%00] the first
    query is rejected although the store can be reached, and the handler
    answers the [StorageError] instead of the all-zero snapshot. *)
Lemma stats_of_a_refused_user_id :
  OrderByLaws checked_backend /\
  reachable 4 fresh_world /\
  (forall r, In r (game_scores (db fresh_world)) -> user_id r <> nul_user) /\
  user_id_in (Postgres := checked_backend) (JsString nul_user) = None /\
  response (getStats_bound (pg := checked_backend) nul_user) fresh_world =
    StorageError /\
  snapshot (response (getStats_bound (pg := checked_backend) nul_user)
                     fresh_world) = None.
Proof.
  split; [exact checked_backend_order|].
  split; [reflexivity|]. split; [intros r []|].
  repeat split.
Qed.

Lemma record_score_appends_one_record_witness :
  let body := request "ada" "clicker" 5 in
  let w' := after (recordScore (pg := stable_backend) body) tie_world in
  exists r s s',
    game_scores (db w') = (game_scores (db tie_world) ++ [r])%list /\
    snapshot (response (getStats (pg := stable_backend) (user_id r))
                       tie_world) = Some s /\
    snapshot (response (getStats (pg := stable_backend) (user_id r)) w') =
      Some s' /\
    totalGames s' = totalGames s + 1.
Proof.
  intros body w'.
  destruct (proj1 (record_score_appends_one_record
                     (pg := stable_backend) (laws := stable_backend_laws))
                  body tie_world eq_refl eq_refl)
    as (r & s & s' & _ & _ & _ & Hrows & Hs & Hs' & Htotal).
  exists r, s, s'. repeat split; assumption.
Defined.

Lemma failed_operations_change_nothing_witness :
  response (recordScore (pg := stable_backend) (request "ada" "clicker" 5))
           down_world = StorageError /\
  db (after (recordScore (pg := stable_backend) (request "ada" "clicker" 5))
            down_world) = db down_world /\
  response (getStats (pg := stable_backend) "ada") down_world =
    StorageError /\
  snapshot (response (getStats (pg := stable_backend) "ada") down_world) =
    None.
Proof.
  destruct (failed_operations_change_nothing (pg := stable_backend))
    as (_ & Hrecord & Hstats & _).
  split; [reflexivity|].
  split.
  - apply Hrecord. right. reflexivity.
  - destruct (Hstats "ada" down_world) as (H1 & H2 & _).
    + discriminate.
    + split; assumption.
Defined.

Lemma written_records_never_change_witness :
  let events := [GetStats "ada";
                 RecordScore (request "ada" "clicker" 9);
                 Environment 2000 [true];
                 RecordScore (request "ada" "memory" 3)] in
  nth_error (game_scores (db (run (pg := stable_backend) events tie_world)))
            1 =
  Some {| user_id := "ada"; game_type := "memory"; score := 2;
          played_at := 1000 |}.
Proof.
  intros events.
  apply (proj1 (proj2 (written_records_never_change (pg := stable_backend)))
               events tie_world 1%nat).
  reflexivity.
Defined.

Lemma validation_is_by_truthiness_witness :
  recordScore (pg := stable_backend)
    {| Req.userId := JsNumber 0; Req.gameType := JsString "clicker";
       Req.score := JsNumber 5 |} down_world =
  (Fulfilled ValidationError, down_world) /\
  recordScore (pg := stable_backend)
    {| Req.userId := JsString "ada"; Req.gameType := JsString "clicker";
       Req.score := JsUndefined |} down_world =
  (Fulfilled ValidationError, down_world) /\
  response (recordScore (pg := stable_backend)
              {| Req.userId := JsString "ada";
                 Req.gameType := JsString "clicker";
                 Req.score := JsNull |}) fresh_world <> ValidationError.
Proof.
  destruct (validation_is_by_truthiness (pg := stable_backend))
    as (_ & _ & Hfalsy & Hforward & _).
  split; [|split].
  - apply Hfalsy. left. reflexivity.
  - apply Hfalsy. right; right. reflexivity.
  - apply Hforward.
    + reflexivity.
    + reflexivity.
    + discriminate.
Defined.

(** On the strict backend a [null] score that passed the validation is
    then refused by the store. *)
Example null_score_reaches_the_store :
  response (recordScore (pg := stable_backend)
              {| Req.userId := JsString "ada";
                 Req.gameType := JsString "clicker";
                 Req.score := JsNull |}) fresh_world = StorageError.
Proof. reflexivity. Qed.

(** A score for a user nobody registered is refused by the store. *)
Example unknown_user_is_a_storage_error :
  response (recordScore (pg := stable_backend) (request "bob" "clicker" 3))
           fresh_world = StorageError.
Proof. reflexivity. Qed.

(** An aggregate of 0 is reported both for a best score of 0 and for no
    score at all. *)
Example zero_best_score :
  or_zero (parseInt (first_cell [sql_max [0; -4]])) = 0 /\
  or_zero (parseInt (first_cell [sql_max []])) = 0 /\
  or_zero (parseInt (first_cell [sql_min [-3; 8]])) = -3.
Proof. repeat split; reflexivity. Qed.

(* ================================================================== *)
(** * More on the score handlers *)
(* ================================================================== *)

Lemma where_user_game_app (u g : string) (l1 l2 : list ScoreRecord) :
  where_user_game u g (l1 ++ l2) =
  (where_user_game u g l1 ++ where_user_game u g l2)%list.
Proof. apply filter_app. Qed.

Section ScoreHandlers.

Context {pg : Postgres}.

(** The world [recordScore] leaves: the one it found when the validation
    rejects the request, the same with one query spent when the store
    rejects it, and otherwise that with one row more. *)
Lemma recordScore_leaves (body : Req.body) (w : World) :
  (response (recordScore body) w = ValidationError /\
   after (recordScore body) w = w)
  \/
  (response (recordScore body) w = StorageError /\
   after (recordScore body) w = attempted w)
  \/
  (response (recordScore body) w = Acknowledgment /\
   exists r,
     user_id_in (Req.userId body) = Some (user_id r) /\
     game_type_in (Req.gameType body) = Some (game_type r) /\
     score_in (Req.score body) = Some (score r) /\
     played_at r = now w /\
     known_user (db w) (user_id r) = true /\
     after (recordScore body) w = append_row r (attempted w)).
Proof.
  destruct (validation_decides body) as [H|(Hu & Hg & Hs)].
  - left. unfold response, after.
    rewrite (recordScore_rejected body w H). auto.
  - right. unfold response, after.
    rewrite (recordScore_forwarded body w Hu Hg Hs).
    destruct w as [d t o].
    destruct (user_id_in (Req.userId body)) as [u|] eqn:Eu;
      [destruct (game_type_in (Req.gameType body)) as [g|] eqn:Eg;
       [destruct (score_in (Req.score body)) as [s|] eqn:Es;
        [destruct (known_user d u) eqn:Ek|]|]|];
      destruct o as [|[] o];
      cbv [try_catch bind insert_game_score reach ret hd tl outages db now
           attempted fst snd];
      rewrite ?Eu, ?Eg, ?Es; cbv beta iota; rewrite ?Ek;
      try (left; split; reflexivity);
      right; (split; [reflexivity|]);
      exists {| user_id := u; game_type := g; score := s; played_at := t |};
      repeat split; assumption.
Qed.



(** X2.  Only the two reserved game types have a best score.  An accepted
    score of a game type other than "clicker" leaves every user's
    [bestClickerScore] as it was, and one of a game type other than
    "memory" leaves every [bestMemoryMoves] as it was. *)
Theorem best_scores_ignore_other_game_types
    (u : string) (body : Req.body) (g : string) (w : World) :
  reachable 5 w ->
  game_type_in (Req.gameType body) = Some g ->
  exists s s',
    snapshot (response (getStats u) w) = Some s /\
    snapshot (response (getStats u) (after (recordScore body) w)) = Some s' /\
    (g <> "clicker" -> bestClickerScore s' = bestClickerScore s) /\
    (g <> "memory" -> bestMemoryMoves s' = bestMemoryMoves s).
Proof.
  intros Hr Hg.
  assert (H4 : reachable 4 w) by (apply (reachable_le 4 5); [lia|assumption]).
  assert (H4' : reachable 4 (attempted w)) by now apply reachable_attempted.
  destruct (recordScore_leaves body w)
    as [(_ & ->)|[(_ & ->)|(_ & r & _ & Hg' & _ & _ & _ & ->)]].
  - destruct (getStats_reachable u w H4) as [-> _].
    eexists. eexists. repeat split; reflexivity.
  - destruct (getStats_reachable u w H4) as [-> _].
    destruct (getStats_reachable u (attempted w) H4') as [-> _].
    eexists. eexists. repeat split; reflexivity.
  - destruct (getStats_reachable u w H4) as [-> _].
    destruct (getStats_reachable u (append_row r (attempted w)) H4')
      as [-> _].
    eexists. eexists. split; [reflexivity|]. split; [reflexivity|].
    unfold bestClickerScore, bestMemoryMoves.
    cbn [append_row attempted db game_scores].
    rewrite !where_user_game_app.
    assert (Eg : game_type r = g) by congruence.
    split; intros Hne; cbn [where_user_game filter]; rewrite Eg;
      apply String.eqb_neq in Hne; rewrite Hne, andb_false_r;
      now rewrite app_nil_r.
Qed.

Lemma where_user_game_nil (u g : string) (rows : list ScoreRecord) :
  (forall r, In r rows -> user_id r = u -> game_type r <> g) ->
  where_user_game u g rows = [].
Proof.
  intros Hno.
  destruct (where_user_game u g rows) as [|r rest] eqn:E; [reflexivity|].
  assert (Hin : In r (where_user_game u g rows)) by (rewrite E; now left).
  apply in_where_user_game in Hin. destruct Hin as (Hin & Hu & Hg).
  now destruct (Hno r Hin Hu).
Qed.

(** X3.  How a best score moves.  Once a score [z] is accepted for the
    user [u] and the game "clicker", [bestClickerScore] is [z] if the
    user had no clicker score and the greater of [z] and the former best
    otherwise; for "memory", [bestMemoryMoves] is [z] if the user had no
    memory score and the lesser of [z] and the former best otherwise.  A
    first negative score therefore takes the report below the 0 that
    stood for "no score". *)
Theorem best_scores_after_a_record
    (body : Req.body) (u g : string) (z : Z) (w : World) :
  reachable 5 w ->
  response (recordScore body) w = Acknowledgment ->
  user_id_in (Req.userId body) = Some u ->
  game_type_in (Req.gameType body) = Some g ->
  score_in (Req.score body) = Some z ->
  exists s s',
    snapshot (response (getStats u) w) = Some s /\
    snapshot (response (getStats u) (after (recordScore body) w)) = Some s' /\
    (g = "clicker" ->
     ((forall r, In r (game_scores (db w)) ->
                 user_id r = u -> game_type r <> "clicker") ->
      bestClickerScore s' = z) /\
     ((exists r, In r (game_scores (db w)) /\
                 user_id r = u /\ game_type r = "clicker") ->
      bestClickerScore s' = Z.max (bestClickerScore s) z)) /\
    (g = "memory" ->
     ((forall r, In r (game_scores (db w)) ->
                 user_id r = u -> game_type r <> "memory") ->
      bestMemoryMoves s' = z) /\
     ((exists r, In r (game_scores (db w)) /\
                 user_id r = u /\ game_type r = "memory") ->
      bestMemoryMoves s' = Z.min (bestMemoryMoves s) z)).
Proof.
  intros Hr Hack Hu Hg Hz.
  assert (H4 : reachable 4 w) by (apply (reachable_le 4 5); [lia|assumption]).
  assert (H4' : reachable 4 (attempted w)) by now apply reachable_attempted.
  destruct (recordScore_leaves body w)
    as [(H & _)|[(H & _)|(_ & r & Hu' & Hg' & Hz' & _ & _ & E)]];
    [rewrite H in Hack; discriminate Hack ..|].
  rewrite E.
  destruct (getStats_reachable u w H4) as [-> _].
  destruct (getStats_reachable u (append_row r (attempted w)) H4') as [-> _].
  eexists. eexists. split; [reflexivity|]. split; [reflexivity|].
  unfold bestClickerScore, bestMemoryMoves.
  cbn [append_row attempted db game_scores].
  rewrite !where_user_game_app, !map_app, !best_of_sql_max, !best_of_sql_min.
  assert (Er : user_id r = u /\ game_type r = g /\ score r = z)
    by (repeat split; congruence).
  destruct Er as (Eu & Eg & Ez).
  split; intros ->; cbn [where_user_game filter map];
    rewrite Eu, Eg, !String.eqb_refl; cbn [andb map]; rewrite Ez.
  - split.
    + intros Hnone. now rewrite (where_user_game_nil _ _ _ Hnone).
    + intros (r0 & Hin & Hu0 & Hg0).
      assert (Hin' : In (score r0)
                (map score (where_user_game u "clicker" (game_scores (db w)))))
        by (apply in_map, in_where_user_game; auto).
      destruct (map score (where_user_game u "clicker" (game_scores (db w))))
        as [|x rest]; [now destruct Hin'|].
      cbn [app]. now rewrite fold_left_app.
  - split.
    + intros Hnone. now rewrite (where_user_game_nil _ _ _ Hnone).
    + intros (r0 & Hin & Hu0 & Hg0).
      assert (Hin' : In (score r0)
                (map score (where_user_game u "memory" (game_scores (db w)))))
        by (apply in_map, in_where_user_game; auto).
      destruct (map score (where_user_game u "memory" (game_scores (db w))))
        as [|x rest]; [now destruct Hin'|].
      cbn [app]. now rewrite fold_left_app.
Qed.

(** X5.  [getStats] sends its four reads one after the other and stops at
    the first that is rejected: when the store fails at the read of rank
    [k], the answer is the [StorageError] and [k + 1] queries were
    attempted; when none fails, four were. *)
Theorem getStats_stops_at_the_first_rejection (u : string) (w : World) :
  (forall k : nat,
     (k < 4)%nat ->
     reachable k w ->
     nth k (outages w) false = true ->
     response (getStats u) w = StorageError /\
     outages (after (getStats u) w) = skipn (S k) (outages w))
  /\
  (reachable 4 w ->
   outages (after (getStats u) w) = skipn 4 (outages w)).
Proof.
  destruct w as [d t o]. unfold reachable. cbn [outages]. split.
  - intros k Hk Hup Hdown.
    destruct k as [|[|[|[|k]]]]; [| | | |lia];
      destruct o as [|[] [|[] [|[] [|[] o]]]];
      cbn [firstn existsb orb nth] in Hup, Hdown;
      try discriminate Hup; try discriminate Hdown;
      split; reflexivity.
  - intros Hup.
    destruct o as [|[] [|[] [|[] [|[] o]]]];
      cbn [firstn existsb orb] in Hup; try discriminate Hup; reflexivity.
Qed.

End ScoreHandlers.

Section Snapshots.

Context {pg : Postgres} {laws : PostgresLaws pg}.

(** X4.  The game just played comes first.  When a score is recorded for
    a user at a time later than all the user's records, the next
    [getStats] lists it at the head of [recentGames]. *)
Theorem latest_game_is_listed_first (u g : string) (z : Z) (w : World) :
  u <> EmptyString -> g <> EmptyString ->
  known_user (db w) u = true ->
  reachable 5 w ->
  (forall r, In r (game_scores (db w)) -> user_id r = u ->
             played_at r < now w) ->
  exists s,
    snapshot (response (getStats u)
                (after (recordScore (request u g z)) w)) = Some s /\
    hd_error (recentGames s) =
    Some {| rg_game_type := g; rg_score := z; rg_played_at := now w |}.
Proof.
  intros Hu Hg Hk Hr Hold.
  assert (H1 : reachable 1 w) by (apply (reachable_le 1 5); [lia|assumption]).
  unfold after. rewrite (recordScore_request u g z w Hu Hg Hk H1). cbn [snd].
  set (r := {| user_id := u; game_type := g; score := z;
               played_at := now w |}).
  assert (H4 : reachable 4 (append_row r (attempted w)))
    by (apply reachable_append_row, reachable_attempted; exact Hr).
  destruct (getStats_reachable u _ H4) as [-> _].
  eexists. split; [reflexivity|]. unfold recentGames.
  cbn [append_row attempted db game_scores].
  rewrite where_user_app. cbn [where_user filter].
  change (user_id r) with u. rewrite String.eqb_refl.
  set (mine := where_user u (game_scores (db w))).
  assert (Hp := order_by_permutation (mine ++ [r])).
  assert (Hs := order_by_sorted (mine ++ [r])).
  destruct (order_by_played_at_desc (mine ++ [r])) as [|h rest] eqn:E.
  - apply Permutation_sym, Permutation_nil in Hp.
    now destruct mine.
  - cbn [firstn map hd_error]. f_equal.
    assert (Hh : In h (mine ++ [r]))
      by (apply (Permutation_in _ (Permutation_sym Hp)); now left).
    apply in_app_or in Hh. destruct Hh as [Hh|[<-|[]]]; [|reflexivity].
    exfalso.
    apply in_where_user in Hh. destruct Hh as [Hin Hhu].
    specialize (Hold h Hin Hhu).
    assert (Hr' : In r (h :: rest))
      by (apply (Permutation_in _ Hp), in_or_app; right; now left).
    destruct Hr' as [->|Hr'].
    + cbn [played_at r] in Hold. lia.
    + apply StronglySorted_inv in Hs. destruct Hs as [_ Hs].
      rewrite Forall_forall in Hs. specialize (Hs r Hr').
      unfold newer_or_equal in Hs. cbn [played_at r] in Hs. lia.
Qed.

End Snapshots.

(* ================================================================== *)
(** * The four reads among other requests *)
(* ================================================================== *)

Section AmongOtherRequests.

Context {pg : Postgres}.

(** The answer of [getStats] when other requests are served between its
    reads: each aggregate is that of the ledger at the time of its own
    read. *)
Lemma getStats_among_answer (u : string) (e1 e2 e3 : list Event) (w : World) :
  response (getStats_among u e1 e2 e3) w =
  let a1 := run e1 (attempted w) in
  let a2 := run e2 (attempted a1) in
  let a3 := run e3 (attempted a2) in
  if hd false (outages w) || hd false (outages a1)
     || hd false (outages a2) || hd false (outages a3)
  then StorageError
  else
    res_json (StatsJson
      {| totalGames :=
           or_zero (parseInt (first_cell
             [CText (decimal (Z.of_nat (List.length
                (where_user u (game_scores (db w))))))]));
         bestClickerScore :=
           or_zero (parseInt (first_cell
             [sql_max (map score
                (where_user_game u "clicker" (game_scores (db a1))))]));
         bestMemoryMoves :=
           or_zero (parseInt (first_cell
             [sql_min (map score
                (where_user_game u "memory" (game_scores (db a2))))]));
         recentGames :=
           map recent_columns
             (firstn 10
                (order_by_played_at_desc
                   (where_user u (game_scores (db a3))))) |}).
Proof.
  cbv zeta. unfold response, getStats_among.
  cbv [try_catch bind meanwhile select_total select_best_score
       select_best_moves select_recent reach ret fst].
  destruct (hd false (outages w)); [reflexivity|].
  cbv beta iota.
  change (db (attempted w)) with (db w).
  destruct (hd false (outages (run e1 (attempted w)))); [reflexivity|].
  cbv beta iota.
  change (db (attempted (run e1 (attempted w))))
    with (db (run e1 (attempted w))).
  destruct (hd false (outages (run e2 (attempted (run e1 (attempted w))))));
    [reflexivity|].
  cbv beta iota.
  change (db (attempted (run e2 (attempted (run e1 (attempted w))))))
    with (db (run e2 (attempted (run e1 (attempted w))))).
  destruct (hd false (outages
              (run e3 (attempted (run e2 (attempted (run e1 (attempted w)))))))); reflexivity.
Qed.

(** Without other requests the handler is [getStats]. *)
Lemma getStats_among_nothing (u : string) (w : World) :
  getStats_among u [] [] [] w = getStats u w.
Proof.
  destruct w as [d t o].
  destruct o as [|[] [|[] [|[] [|[] o]]]]; reflexivity.
Qed.

(** The rows of a user after requests served in the meantime: those
    there were, followed by others. *)
Lemma own_rows_grow (u : string) (events : list Event) (w : World) :
  exists added,
    where_user u (game_scores (db (run events (attempted w)))) =
    (where_user u (game_scores (db w)) ++ added)%list.
Proof.
  destruct (run_extends events (attempted w)) as (_ & added & H).
  change (db (attempted w)) with (db w) in H.
  exists (where_user u added). now rewrite H, where_user_app.
Qed.

(** Requests that record nothing under [u] leave the rows of [u]. *)
Lemma own_rows_stay (u : string) (events : list Event) (w : World) :
  (forall body, In (RecordScore body) events ->
                user_id_in (Req.userId body) <> Some u) ->
  where_user u (game_scores (db (run events w))) =
  where_user u (game_scores (db w)).
Proof.
  revert w. induction events as [|e events IH]; intros w Hother;
    [reflexivity|].
  cbn [run fold_left]. fold (run events (step e w)).
  rewrite IH by (intros body Hin; apply Hother; now right).
  destruct e as [body|v|t o]; cbn [step].
  - destruct (recordScore_leaves body w)
      as [(_ & ->)|[(_ & ->)|(_ & r & Hu & _ & _ & _ & _ & ->)]];
      try reflexivity.
    cbn [append_row attempted db game_scores].
    rewrite where_user_app. cbn [where_user filter].
    destruct (String.eqb_spec (user_id r) u) as [E|_];
      [|apply app_nil_r].
    destruct (Hother body (or_introl eq_refl)). congruence.
  - now rewrite getStats_db.
  - reflexivity.
Qed.

Context {ord : OrderByLaws pg}.

(** X6.  The four reads of [getStats] are not one snapshot, yet its
    fields agree as far as an append-only ledger allows.  Whatever
    requests are served between the reads, a stats answer has at most
    ten recent games and at least as many as [totalGames] says, up to
    ten.  When none of the requests served in between records a score
    under the user, there are exactly that many, and a [totalGames] of 0
    comes with both best scores at 0 and no recent game. *)
Theorem snapshot_fields_agree_up_to_writes
    (u : string) (e1 e2 e3 : list Event) (w : World) (s : Stats) :
  snapshot (response (getStats_among u e1 e2 e3) w) = Some s ->
  0 <= totalGames s /\
  Z.min 10 (totalGames s) <= Z.of_nat (List.length (recentGames s)) <= 10 /\
  ((forall body, In (RecordScore body) (e1 ++ e2 ++ e3) ->
                 user_id_in (Req.userId body) <> Some u) ->
   Z.of_nat (List.length (recentGames s)) = Z.min 10 (totalGames s) /\
   (totalGames s = 0 ->
    bestClickerScore s = 0 /\ bestMemoryMoves s = 0 /\ recentGames s = [])).
Proof.
  rewrite getStats_among_answer. cbv zeta.
  set (a1 := run e1 (attempted w)).
  set (a2 := run e2 (attempted a1)).
  set (a3 := run e3 (attempted a2)).
  destruct (hd false (outages w) || hd false (outages a1)
            || hd false (outages a2) || hd false (outages a3));
    [discriminate|].
  unfold snapshot, res_json, json. intros H.
  assert (E := f_equal (fun o => match o with Some x => x | None => s end) H).
  cbv beta iota in E. subst s. clear H.
  unfold totalGames, bestClickerScore, bestMemoryMoves, recentGames.
  rewrite total_of_count, !where_user_game_of_where_user.
  set (mine := where_user u (game_scores (db w))).
  assert (Hp := sorted_rows_permutation (where_user u (game_scores (db a3)))).
  rewrite length_map, length_firstn, <- (Permutation_length Hp).
  split; [lia|]. split.
  - destruct (own_rows_grow u e1 w) as (x1 & H1). fold a1 in H1.
    destruct (own_rows_grow u e2 a1) as (x2 & H2). fold a2 in H2.
    destruct (own_rows_grow u e3 a2) as (x3 & H3). fold a3 in H3.
    rewrite H3, H2, H1. fold mine. rewrite !length_app. lia.
  - intros Hother.
    assert (E1 : where_user u (game_scores (db a1)) = mine).
    { unfold a1. rewrite own_rows_stay; [reflexivity|].
      intros body Hin. apply Hother, in_or_app. now left. }
    assert (E2 : where_user u (game_scores (db a2)) = mine).
    { unfold a2. rewrite own_rows_stay; [exact E1|].
      intros body Hin. apply Hother, in_or_app. right.
      apply in_or_app. now left. }
    assert (E3 : where_user u (game_scores (db a3)) = mine).
    { unfold a3. rewrite own_rows_stay; [exact E2|].
      intros body Hin. apply Hother, in_or_app. right.
      apply in_or_app. now right. }
    rewrite E1, E2, E3 in *. split; [lia|].
    intros H0.
    assert (E : mine = [])
      by (destruct mine; [reflexivity|discriminate H0]).
    rewrite E in Hp |- *. apply Permutation_nil in Hp. rewrite Hp.
    repeat split; reflexivity.
Qed.

End AmongOtherRequests.

(* ================================================================== *)
(** * Facts about the account queries *)
(* ================================================================== *)

Lemma existsb_permutation {A} (f : A -> bool) (l l' : list A) :
  Permutation l l' -> existsb f l = existsb f l'.
Proof.
  induction 1 as [|x l l' _ IH|x y l|l l' l'' _ IH1 _ IH2]; cbn [existsb].
  - reflexivity.
  - now rewrite IH.
  - now rewrite !orb_assoc, (orb_comm (f y)).
  - congruence.
Qed.

Lemma some_row_filter {A B} (g : A -> B) (f : A -> bool) (l : list A) :
  some_row (map g (filter f l)) = existsb f l.
Proof.
  induction l as [|x l IH]; [reflexivity|].
  cbn [filter existsb]. destruct (f x); [reflexivity|exact IH].
Qed.

Lemma existsb_false_iff {A} (f : A -> bool) (l : list A) :
  existsb f l = false <-> forall x, In x l -> f x = false.
Proof.
  split.
  - intros H x Hx. destruct (f x) eqn:E; [|reflexivity].
    rewrite <- H. symmetry. apply existsb_exists. eauto.
  - intros H. destruct (existsb f l) eqn:E; [|reflexivity].
    apply existsb_exists in E. destruct E as (x & Hx & Hfx).
    now rewrite (H x Hx) in Hfx.
Qed.

(** The username, respectively the email, is that of some account. *)
Local Abbreviation username_taken u t :=
  (existsb (fun a => String.eqb (Users.username a) u) t).
Local Abbreviation email_taken e t :=
  (existsb (fun a => String.eqb (Users.email a) e) t).

Section AccountQueries.

Context {idn : Identity}.

(** [register], query by query, once the three fields are truthy. *)
Lemma register_unfolded (body : Reg.body) (s : Site) :
  truthy (Reg.username body) = true ->
  truthy (Reg.email body) = true ->
  truthy (Reg.password body) = true ->
  register body s =
  if hd false (script s) then (Fulfilled InternalError, spent s) else
  match username_in (Reg.username body) with
  | None => (Fulfilled InternalError, spent s)
  | Some u =>
    if username_taken u (scan_users (accounts s))
    then (Fulfilled UsernameTaken, spent s) else
    if hd false (script (spent s))
    then (Fulfilled InternalError, spent (spent s)) else
    match email_in (Reg.email body) with
    | None => (Fulfilled InternalError, spent (spent s))
    | Some e =>
      if email_taken e (scan_users (accounts s))
      then (Fulfilled EmailRegistered, spent (spent s)) else
      if hd false (script (spent (spent s)))
      then (Fulfilled InternalError, spent (spent (spent s))) else
      match password_in (Reg.password body) with
      | None => (Fulfilled InternalError, spent (spent (spent s)))
      | Some p =>
        let a := {| Users.id := new_id (accounts s);
                    Users.username := u;
                    Users.email := e;
                    Users.password := p;
                    Users.created_at := clock s;
                    Users.last_login := clock s |} in
        (Fulfilled (Registered (public_columns a)),
         append_account a (spent (spent (spent s))))
      end
    end
  end.
Proof.
  intros Tu Te Tp. unfold register. rewrite Tu, Te, Tp. cbn [negb orb].
  destruct s as [acc sc t o].
  cbv [Task.try_catch Task.bind Task.ret select_id_by_username
       select_id_by_email insert_user reach_store Task.on_ledger reach
       world_of site_of attempted spent append_account
       db now outages game_scores accounts scores clock script hd tl].
  destruct o as [|[] o]; [| reflexivity |];
    (destruct (username_in (Reg.username body)) as [u|]; [|reflexivity];
     rewrite some_row_filter;
     destruct (username_taken u (scan_users acc)); [reflexivity|]).
  - destruct (email_in (Reg.email body)) as [e|]; [|reflexivity].
    rewrite some_row_filter.
    destruct (email_taken e (scan_users acc)); [reflexivity|].
    destruct (password_in (Reg.password body)) as [p|]; reflexivity.
  - destruct o as [|[] o]; [| reflexivity |];
      (destruct (email_in (Reg.email body)) as [e|]; [|reflexivity];
       rewrite some_row_filter;
       destruct (email_taken e (scan_users acc)); [reflexivity|]).
    + destruct (password_in (Reg.password body)) as [p|]; reflexivity.
    + destruct o as [|[] o]; try reflexivity;
        destruct (password_in (Reg.password body)) as [p|]; reflexivity.
Qed.

(** [login], query by query, once the two fields are truthy. *)
Lemma login_unfolded (body : Login.body) (s : Site) :
  truthy (Login.email body) = true ->
  truthy (Login.password body) = true ->
  login body s =
  if hd false (script s) then (Fulfilled InternalError, spent s) else
  match email_in (Login.email body), password_in (Login.password body) with
  | Some e, Some p =>
    match filter (fun a => String.eqb (Users.email a) e &&
                           String.eqb (Users.password a) p)
                 (scan_users (accounts s)) with
    | [] => (Fulfilled InvalidCredentials, spent s)
    | a :: _ =>
      if hd false (script (spent s))
      then (Fulfilled InternalError, spent (spent s))
      else (Fulfilled (LoggedIn (public_columns a)),
            touch_last_login (Users.id a) (spent (spent s)))
    end
  | _, _ => (Fulfilled InternalError, spent s)
  end.
Proof.
  intros Te Tp. unfold login. rewrite Te, Tp. cbn [negb orb].
  destruct s as [acc sc t o].
  cbv [Task.try_catch Task.bind Task.ret select_by_credentials
       update_last_login reach_store Task.on_ledger reach
       world_of site_of attempted spent touch_last_login
       db now outages game_scores accounts scores clock script hd tl].
  destruct o as [|[] o]; [| reflexivity |];
    (destruct (email_in (Login.email body)) as [e|]; [|reflexivity];
     destruct (password_in (Login.password body)) as [p|]; [|reflexivity];
     destruct (filter _ (scan_users acc)) as [|a rest]; [reflexivity|];
     cbn [map hd_error]).
  - reflexivity.
  - destruct o as [|[] o]; reflexivity.
Qed.

Lemma getUsers_unfolded (s : Site) :
  getUsers s =
  if hd false (script s) then (Fulfilled InternalError, spent s)
  else (Fulfilled
          (reply_json
             (Reply.UserList
                (map listed_columns (order_by_created_at_desc (accounts s))))),
        spent s).
Proof.
  destruct s as [acc sc t o]. destruct o as [|[] o]; reflexivity.
Qed.

Lemma getGameScores_unfolded (s : Site) :
  getGameScores s =
  if hd false (script s) then (Fulfilled InternalError, spent s)
  else (Fulfilled
          (reply_json
             (Reply.ScoreList
                (order_by_gs_played_at_desc
                   (join_users (scores s) (accounts s))))),
        spent s).
Proof.
  destruct s as [acc sc t o]. destruct o as [|[] o]; reflexivity.
Qed.

(** The validation of lines 41 and 89 answers before any query. *)
Lemma register_rejected (body : Reg.body) (s : Site) :
  truthy (Reg.username body) = false \/
  truthy (Reg.email body) = false \/
  truthy (Reg.password body) = false ->
  register body s = (Fulfilled AllFieldsRequired, s).
Proof.
  intros H. unfold register, Task.try_catch.
  destruct H as [H|[H|H]]; rewrite H; cbn [negb orb];
    rewrite ?orb_true_r; reflexivity.
Qed.

Lemma login_rejected (body : Login.body) (s : Site) :
  truthy (Login.email body) = false \/
  truthy (Login.password body) = false ->
  login body s = (Fulfilled CredentialsRequired, s).
Proof.
  intros H. unfold login, Task.try_catch.
  destruct H as [H|H]; rewrite H; cbn [negb orb];
    rewrite ?orb_true_r; reflexivity.
Qed.

End AccountQueries.

Lemma store_reachable_S (n : nat) (s : Site) :
  store_reachable (S n) s <->
  hd false (script s) = false /\ store_reachable n (spent s).
Proof.
  unfold store_reachable, reachable. cbn [world_of spent outages script].
  destruct (script s) as [|b o]; cbn [hd tl firstn existsb].
  - rewrite firstn_nil. cbn [existsb]. tauto.
  - rewrite orb_false_iff. tauto.
Qed.

Lemma store_reachable_0 (s : Site) : store_reachable 0 s.
Proof. reflexivity. Qed.

(* ================================================================== *)
(** * Registration and login *)
(* ================================================================== *)


Lemma eqb_free_iff {A} (key : A -> string) (k : string) (t : list A) :
  existsb (fun a => String.eqb (key a) k) t = false <->
  forall a, In a t -> key a <> k.
Proof.
  rewrite existsb_false_iff. split; intros H a Hin;
    specialize (H a Hin); now apply String.eqb_neq.
Qed.


Section Accounts.

Context {idn : Identity} {laws : IdentityLaws idn}.

Lemma scan_taken {key : Users.row -> string} (k : string)
    (t : list Users.row) :
  existsb (fun a => String.eqb (key a) k) (scan_users t) =
  existsb (fun a => String.eqb (key a) k) t.
Proof.
  symmetry. apply existsb_permutation, scan_users_permutation.
Qed.



End Accounts.

Section AccountValidation.

Context {idn : Identity}.

(** X8.  The account handlers validate by truthiness, before any query.
    A registration one of whose three fields is [undefined], [null],
    [false], [0] or the empty string is answered "All fields are
    required", and a login one of whose two fields is such is answered
    "Email and password are required"; in both cases the site is left as
    it was, outage script included. *)
Theorem account_requests_are_validated_first :
  (forall (body : Reg.body) (s : Site),
     truthy (Reg.username body) = false \/
     truthy (Reg.email body) = false \/
     truthy (Reg.password body) = false ->
     register body s = (Fulfilled AllFieldsRequired, s))
  /\
  (forall (body : Login.body) (s : Site),
     truthy (Login.email body) = false \/
     truthy (Login.password body) = false ->
     login body s = (Fulfilled CredentialsRequired, s))
  /\
  (forall (body : Reg.body) (s : Site),
     truthy (Reg.username body) = true ->
     truthy (Reg.email body) = true ->
     truthy (Reg.password body) = true ->
     reply (register body) s <> AllFieldsRequired)
  /\
  (forall (body : Login.body) (s : Site),
     truthy (Login.email body) = true ->
     truthy (Login.password body) = true ->
     reply (login body) s <> CredentialsRequired).
Proof.
  split; [exact register_rejected|]. split; [exact login_rejected|]. split.
  - intros body s Tu Te Tp. unfold reply.
    rewrite (register_unfolded body s Tu Te Tp).
    destruct (hd false (script s)); [discriminate|].
    destruct (username_in _); [|discriminate].
    destruct (existsb _ _); [discriminate|].
    destruct (hd false (script (spent s))); [discriminate|].
    destruct (email_in _); [|discriminate].
    destruct (existsb _ _); [discriminate|].
    destruct (hd false (script (spent (spent s)))); [discriminate|].
    destruct (password_in _); discriminate.
  - intros body s Te Tp. unfold reply.
    rewrite (login_unfolded body s Te Tp).
    destruct (hd false (script s)); [discriminate|].
    destruct (email_in _); [|discriminate].
    destruct (password_in _); [|discriminate].
    destruct (filter _ _); [discriminate|].
    destruct (hd false (script (spent s))); discriminate.
Qed.

End AccountValidation.

(* ================================================================== *)
(** * What a sequence of requests can do to the site *)
(* ================================================================== *)

Lemma touched_identity (t : Z) (i : string) (l : list Users.row) :
  map identity_columns
      (map (fun a => if String.eqb (Users.id a) i then touched t a else a) l) =
  map identity_columns l.
Proof.
  rewrite map_map. apply map_ext. intros a.
  now destruct (String.eqb (Users.id a) i).
Qed.

Section Requests.

Context {pg : Postgres} {idn : Identity}.

(** One request leaves the accounts as they were, or appends one whose
    username and email no account had, or sets [last_login] in the
    accounts of one [id]; and it only ever adds scores at the end. *)
Lemma serve_effect (r : Request) (s : Site) :
  (accounts (serve r s) = accounts s
   \/
   (exists a,
      accounts (serve r s) = (accounts s ++ [a])%list /\
      existsb (fun x => String.eqb (Users.username x) (Users.username a))
              (scan_users (accounts s)) = false /\
      existsb (fun x => String.eqb (Users.email x) (Users.email a))
              (scan_users (accounts s)) = false)
   \/
   (exists i,
      accounts (serve r s) =
      map (fun a => if String.eqb (Users.id a) i
                    then touched (clock s) a else a)
          (accounts s)))
  /\
  exists added, scores (serve r s) = (scores s ++ added)%list.
Proof.
  assert (Same : forall s' : Site,
            accounts s' = accounts s -> scores s' = scores s ->
            (accounts s' = accounts s
             \/
             (exists a,
                accounts s' = (accounts s ++ [a])%list /\
                existsb (fun x => String.eqb (Users.username x)
                                             (Users.username a))
                        (scan_users (accounts s)) = false /\
                existsb (fun x => String.eqb (Users.email x) (Users.email a))
                        (scan_users (accounts s)) = false)
             \/
             (exists i,
                accounts s' =
                map (fun a => if String.eqb (Users.id a) i
                              then touched (clock s) a else a)
                    (accounts s)))
            /\
            exists added, scores s' = (scores s ++ added)%list).
  { intros s' Ha Hs. split; [now left|].
    exists []. now rewrite app_nil_r. }
  destruct r as [body|body|body|u| | |t o]; cbn [serve]; unfold left_by.
  - destruct (truthy (Reg.username body)) eqn:Tu;
      [destruct (truthy (Reg.email body)) eqn:Te;
       [destruct (truthy (Reg.password body)) eqn:Tp|]|];
      [|rewrite register_rejected; [now apply Same|auto] ..].
    + rewrite (register_unfolded body s Tu Te Tp).
      destruct (hd false (script s)); [now apply Same|].
      destruct (username_in _) as [u|]; [|now apply Same].
      destruct (existsb _ _) eqn:Fu; [now apply Same|].
      destruct (hd false (script (spent s))); [now apply Same|].
      destruct (email_in _) as [e|]; [|now apply Same].
      destruct (existsb _ (scan_users (accounts s))) eqn:Fe in |- *;
        [now apply Same|].
      destruct (hd false (script (spent (spent s)))); [now apply Same|].
      destruct (password_in _) as [p|]; [|now apply Same].
      cbn [snd append_account spent accounts scores]. split.
      * right; left. eexists. split; [reflexivity|].
        cbn [Users.username Users.email]. split; assumption.
      * exists []. now rewrite app_nil_r.
  - destruct (truthy (Login.email body)) eqn:Te;
      [destruct (truthy (Login.password body)) eqn:Tp|];
      [|rewrite login_rejected; [now apply Same|auto] ..].
    rewrite (login_unfolded body s Te Tp).
    destruct (hd false (script s)); [now apply Same|].
    destruct (email_in _) as [e|]; [|now apply Same].
    destruct (password_in _) as [p|]; [|now apply Same].
    destruct (filter _ _) as [|a rest]; [now apply Same|].
    destruct (hd false (script (spent s))); [now apply Same|].
    cbn [snd touch_last_login spent accounts scores clock]. split.
    + right; right. eexists. reflexivity.
    + exists []. now rewrite app_nil_r.
  - unfold Task.on_ledger.
    destruct (step_extends (RecordScore body) (world_of s))
      as (_ & added & Hadd).
    cbn [step] in Hadd. unfold after in Hadd.
    destruct (recordScore body (world_of s)) as [r w].
    cbn [snd site_of accounts scores] in *. split; [now left|].
    exists added. exact Hadd.
  - unfold Task.on_ledger.
    assert (Hdb := getStats_db u (world_of s)). unfold after in Hdb.
    destruct (getStats u (world_of s)) as [r w].
    cbn [snd site_of accounts scores] in *. split; [now left|].
    exists []. now rewrite Hdb, app_nil_r.
  - rewrite getUsers_unfolded. destruct (hd false (script s)); now apply Same.
  - rewrite getGameScores_unfolded.
    destruct (hd false (script s)); now apply Same.
  - now apply Same.
Qed.

Lemma serve_all_cons (r : Request) (requests : list Request) (s : Site) :
  serve_all (r :: requests) s = serve_all requests (serve r s).
Proof. reflexivity. Qed.

Lemma serve_all_appends (requests : list Request) (s : Site) :
  exists new_accounts new_scores,
    map identity_columns (accounts (serve_all requests s)) =
    (map identity_columns (accounts s) ++ new_accounts)%list /\
    scores (serve_all requests s) = (scores s ++ new_scores)%list.
Proof.
  revert s. induction requests as [|r requests IH]; intros s.
  - exists [], []. cbn [serve_all fold_left]. now rewrite !app_nil_r.
  - rewrite serve_all_cons.
    destruct (IH (serve r s)) as (na & ns & Ha & Hs).
    destruct (serve_effect r s) as (Hacc & added & Hadd).
    rewrite Ha, Hs, Hadd.
    destruct Hacc as [->|[(a & -> & _)|(i & ->)]].
    + exists na, (added ++ ns)%list. now rewrite app_assoc.
    + exists (identity_columns a :: na), (added ++ ns)%list.
      rewrite map_app, <- !app_assoc. split; reflexivity.
    + exists na, (added ++ ns)%list.
      now rewrite touched_identity, app_assoc.
Qed.

(** X11.  Nothing is ever deleted or rewritten.  Through any sequence of
    requests every account keeps its place and its [id], [username],
    [email], [password] and [created_at] (only [last_login] moves), and
    every score keeps its place and its columns; what is new comes after
    what was there. *)
Theorem accounts_and_scores_are_only_appended
    (requests : list Request) (s : Site) :
  (exists new_accounts new_scores,
     map identity_columns (accounts (serve_all requests s)) =
     (map identity_columns (accounts s) ++ new_accounts)%list /\
     scores (serve_all requests s) = (scores s ++ new_scores)%list)
  /\
  (forall (i : nat) (a : Users.row),
     nth_error (accounts s) i = Some a ->
     exists a',
       nth_error (accounts (serve_all requests s)) i = Some a' /\
       identity_columns a' = identity_columns a)
  /\
  (forall (i : nat) (r : ScoreRecord),
     nth_error (scores s) i = Some r ->
     nth_error (scores (serve_all requests s)) i = Some r).
Proof.
  destruct (serve_all_appends requests s) as (na & ns & Ha & Hs).
  split; [eauto|]. split.
  - intros i a Hi.
    assert (Hc : nth_error (map identity_columns
                              (accounts (serve_all requests s))) i =
                 Some (identity_columns a)).
    { rewrite Ha, nth_error_app1.
      - now rewrite nth_error_map, Hi.
      - rewrite length_map. apply nth_error_Some. congruence. }
    rewrite nth_error_map in Hc.
    destruct (nth_error (accounts (serve_all requests s)) i) as [a'|];
      [|discriminate Hc].
    exists a'. split; [reflexivity|]. cbn [option_map] in Hc. congruence.
  - intros i r Hi. rewrite Hs, nth_error_app1; [exact Hi|].
    apply nth_error_Some. congruence.
Qed.

End Requests.

Lemma touched_key {B} (key : Users.row -> B) (t : Z) (i : string)
    (l : list Users.row) :
  (forall a, key (touched t a) = key a) ->
  map key (map (fun a => if String.eqb (Users.id a) i then touched t a else a)
               l) =
  map key l.
Proof.
  intros H. rewrite map_map. apply map_ext. intros a.
  destruct (String.eqb (Users.id a) i); [apply H | reflexivity].
Qed.

Lemma NoDup_snoc {B} (l : list B) (x : B) :
  NoDup l -> ~ In x l -> NoDup (l ++ [x]).
Proof.
  intros Hl Hx. apply NoDup_app; [exact Hl | repeat constructor; intros [] |].
  intros a Ha [<-|[]]. contradiction.
Qed.

Section Uniqueness.

Context {pg : Postgres} {idn : Identity} {laws : IdentityLaws idn}.

Lemma free_key_not_in (key : Users.row -> string) (k : string)
    (t : list Users.row) :
  existsb (fun x => String.eqb (key x) k) (scan_users t) = false ->
  ~ In k (map key t).
Proof.
  rewrite scan_taken. intros H Hin.
  apply in_map_iff in Hin. destruct Hin as (x & Hk & Hx).
  apply eqb_free_iff with (a := x) in H; [contradiction | exact Hx].
Qed.

Lemma serve_keeps_unique (r : Request) (s : Site) :
  (NoDup (map Users.username (accounts s)) ->
   NoDup (map Users.username (accounts (serve r s)))) /\
  (NoDup (map Users.email (accounts s)) ->
   NoDup (map Users.email (accounts (serve r s)))).
Proof.
  destruct (serve_effect r s) as ([->|[(a & -> & Hu & He)|(i & ->)]] & _).
  - tauto.
  - rewrite !map_app. cbn [map]. split; intros H; apply NoDup_snoc;
      try assumption; now apply free_key_not_in.
  - rewrite !touched_key by reflexivity. tauto.
Qed.

(** X10.  Usernames and emails stay unique.  If no two accounts share a
    username, no sequence of requests makes two accounts share one, and
    likewise for emails: a registration is only carried out after the
    two look-ups found nothing, and nothing else writes these columns. *)
Theorem usernames_and_emails_stay_unique
    (requests : list Request) (s : Site) :
  (NoDup (map Users.username (accounts s)) ->
   NoDup (map Users.username (accounts (serve_all requests s)))) /\
  (NoDup (map Users.email (accounts s)) ->
   NoDup (map Users.email (accounts (serve_all requests s)))).
Proof.
  revert s. induction requests as [|r requests IH]; intros s.
  - cbn [serve_all fold_left]. tauto.
  - rewrite serve_all_cons.
    destruct (IH (serve r s)) as [IHu IHe].
    destruct (serve_keeps_unique r s) as [Hu He]. tauto.
Qed.

End Uniqueness.

(* ================================================================== *)
(** * From registration to login *)
(* ================================================================== *)

Section RegisterThenLogin.

Context {pg : Postgres} {idn : Identity} {laws : IdentityLaws idn}.

(** What an answer "User registered successfully" tells. *)
Lemma register_registered (body : Reg.body) (pu : Public.user) (s : Site) :
  reply (register body) s = Registered pu ->
  exists u e p,
    truthy (Reg.email body) = true /\
    truthy (Reg.password body) = true /\
    username_in (Reg.username body) = Some u /\
    email_in (Reg.email body) = Some e /\
    password_in (Reg.password body) = Some p /\
    (forall x, In x (accounts s) -> Users.username x <> u) /\
    (forall x, In x (accounts s) -> Users.email x <> e) /\
    let a := {| Users.id := new_id (accounts s);
                Users.username := u;
                Users.email := e;
                Users.password := p;
                Users.created_at := clock s;
                Users.last_login := clock s |} in
    pu = public_columns a /\
    accounts (left_by (register body) s) = (accounts s ++ [a])%list /\
    scores (left_by (register body) s) = scores s.
Proof.
  unfold reply, left_by.
  destruct (truthy (Reg.username body)) eqn:Tu;
    [destruct (truthy (Reg.email body)) eqn:Te;
     [destruct (truthy (Reg.password body)) eqn:Tp|]|];
    [|rewrite register_rejected by auto; discriminate ..].
  rewrite (register_unfolded body s Tu Te Tp).
  destruct (hd false (script s)); [discriminate|].
  destruct (username_in _) as [u|]; [|discriminate].
  destruct (existsb _ _) eqn:Fu; [discriminate|].
  destruct (hd false (script (spent s))); [discriminate|].
  destruct (email_in _) as [e|]; [|discriminate].
  destruct (existsb _ (scan_users (accounts s))) eqn:Fe in |- *;
    [discriminate|].
  destruct (hd false (script (spent (spent s)))); [discriminate|].
  destruct (password_in _) as [p|]; [|discriminate].
  cbn [fst snd]. intros H. injection H as <-.
  rewrite scan_taken in Fu. rewrite scan_taken in Fe.
  exists u, e, p. repeat split; try reflexivity.
  - now apply eqb_free_iff.
  - now apply eqb_free_iff.
Qed.



End RegisterThenLogin.

(* ================================================================== *)
(** * The two listings *)
(* ================================================================== *)

Lemma insert_desc_perm {A} (key : A -> Z) (x : A) (l : list A) :
  Permutation (x :: l) (insert_desc key x l).
Proof.
  induction l as [|y l IH]; cbn [insert_desc]; [reflexivity|].
  destruct (key y <=? key x); [reflexivity|].
  rewrite perm_swap. now apply perm_skip.
Qed.

Lemma insert_desc_sorted {A} (key : A -> Z) (x : A) (l : list A) :
  StronglySorted (fun a b => key b <= key a) l ->
  StronglySorted (fun a b => key b <= key a) (insert_desc key x l).
Proof.
  induction 1 as [|y l Hs IH Hy]; cbn [insert_desc].
  - repeat constructor.
  - destruct (Z.leb_spec (key y) (key x)) as [Hle|Hlt].
    + constructor; [now constructor|].
      constructor; [exact Hle|].
      revert Hy. apply Forall_impl. intros; lia.
    + constructor; [exact IH|].
      apply (Permutation_Forall (insert_desc_perm key x l)).
      constructor; [lia | exact Hy].
Qed.

Lemma sort_desc_perm {A} (key : A -> Z) (l : list A) :
  Permutation l (sort_desc key l).
Proof.
  unfold sort_desc.
  induction l as [|x l IH]; cbn [fold_right]; [constructor|].
  rewrite <- insert_desc_perm. now apply perm_skip.
Qed.

Lemma sort_desc_sorted {A} (key : A -> Z) (l : list A) :
  StronglySorted (fun a b => key b <= key a) (sort_desc key l).
Proof.
  unfold sort_desc.
  induction l as [|x l IH]; cbn [fold_right]; [constructor|].
  now apply insert_desc_sorted.
Qed.

Lemma serial_identity_laws : IdentityLaws serial_identity.
Proof.
  split; intros t; cbn [scan_users order_by_created_at_desc
                        order_by_gs_played_at_desc serial_identity].
  - reflexivity.
  - apply sort_desc_perm.
  - apply sort_desc_sorted.
  - apply sort_desc_perm.
  - apply (sort_desc_sorted (fun j => played_at (Joined.gs j))).
Qed.

(** The accounts a score joins with. *)
Lemma in_join_users (j : Joined.row) (g : list ScoreRecord)
    (t : list Users.row) :
  In j (join_users g t) <->
  In (Joined.gs j) g /\
  exists a, In a t /\ Users.id a = user_id (Joined.gs j) /\
            Joined.username j = Users.username a.
Proof.
  unfold join_users. rewrite in_flat_map. split.
  - intros (r & Hr & Hj). apply in_map_iff in Hj.
    destruct Hj as (a & <- & Ha). apply filter_In in Ha.
    destruct Ha as [Ha Hid]. apply String.eqb_eq in Hid.
    cbn [Joined.gs Joined.username]. eauto.
  - intros (Hr & a & Ha & Hid & Hname).
    exists (Joined.gs j). split; [exact Hr|].
    apply in_map_iff. exists a. split.
    + destruct j as [r n]. cbn [Joined.gs Joined.username] in *. congruence.
    + apply filter_In. split; [exact Ha|]. now apply String.eqb_eq.
Qed.

(** With distinct identifiers, exactly one account has a given one. *)
Lemma the_account_of (k : string) (t : list Users.row) :
  NoDup (map Users.id t) ->
  In k (map Users.id t) ->
  exists a, filter (fun x => String.eqb k (Users.id x)) t = [a].
Proof.
  induction t as [|x t IH]; cbn [map filter]; intros Hnd Hin; [now destruct Hin|].
  apply NoDup_cons_iff in Hnd. destruct Hnd as [Hx Hnd].
  destruct (String.eqb_spec k (Users.id x)) as [E|E].
  - exists x. f_equal.
    destruct (filter _ t) as [|y rest] eqn:F; [reflexivity|].
    assert (Hy : In y (y :: rest)) by now left.
    rewrite <- F in Hy. apply filter_In in Hy. destruct Hy as [Hy Hk].
    apply String.eqb_eq in Hk. destruct Hx.
    rewrite <- E, Hk. now apply in_map.
  - destruct Hin as [Hin|Hin]; [congruence|]. now apply IH.
Qed.

Lemma join_users_total (g : list ScoreRecord) (t : list Users.row) :
  NoDup (map Users.id t) ->
  (forall r, In r g -> In (user_id r) (map Users.id t)) ->
  map Joined.gs (join_users g t) = g.
Proof.
  intros Hnd Hown. unfold join_users.
  induction g as [|r g IH]; [reflexivity|].
  cbn [flat_map]. rewrite map_app, IH by (intros; apply Hown; now right).
  destruct (the_account_of (user_id r) t Hnd (Hown r (or_introl eq_refl)))
    as (a & ->).
  reflexivity.
Qed.

Section Listings.

Context {idn : Identity} {laws : IdentityLaws idn}.

(** X13.  [GET /api/users] lists every account once, by [created_at]
    descending, with the five columns it selects (the password is not
    among them), and writes nothing; when the store cannot be reached it
    answers "Internal server error". *)
Theorem users_are_listed_newest_first (s : Site) :
  (store_reachable 1 s ->
   exists listed,
     reply getUsers s = reply_json (Reply.UserList listed) /\
     Permutation (map listed_columns (accounts s)) listed /\
     StronglySorted
       (fun a b => Listed.created_at b <= Listed.created_at a) listed)
  /\
  (~ store_reachable 1 s -> reply getUsers s = InternalError)
  /\
  accounts (left_by getUsers s) = accounts s /\
  scores (left_by getUsers s) = scores s.
Proof.
  unfold reply, left_by. rewrite getUsers_unfolded.
  split; [|split].
  - intros Hr. apply store_reachable_S in Hr. destruct Hr as [-> _].
    eexists. split; [reflexivity|]. split.
    + apply Permutation_map, order_by_created_at_permutation.
    + assert (Hs := order_by_created_at_sorted (accounts s)).
      induction Hs as [|a l Hs IH Ha]; cbn [map]; constructor.
      * exact IH.
      * rewrite Forall_map. revert Ha. apply Forall_impl.
        intros b Hb. exact Hb.
  - intros Hdown. destruct (hd false (script s)) eqn:E; [reflexivity|].
    destruct Hdown. apply store_reachable_S. split; [exact E|].
    apply store_reachable_0.
  - destruct (hd false (script s)); split; reflexivity.
Qed.

(** X14.  [GET /api/game-scores] lists, by [played_at] descending, the
    scores that join with an account, each with the username of the
    account whose [id] is its [user_id]; a score whose [user_id] is the
    [id] of no account is left out.  When the identifiers of the accounts
    are distinct and every score has its account, every score is listed
    exactly once. *)
Theorem game_scores_are_listed_with_their_owner (s : Site) :
  store_reachable 1 s ->
  exists listed,
    reply getGameScores s = reply_json (Reply.ScoreList listed) /\
    StronglySorted played_no_later listed /\
    (forall j,
       In j listed <->
       In (Joined.gs j) (scores s) /\
       exists a, In a (accounts s) /\
                 Users.id a = user_id (Joined.gs j) /\
                 Joined.username j = Users.username a) /\
    (NoDup (map Users.id (accounts s)) ->
     (forall r, In r (scores s) ->
                In (user_id r) (map Users.id (accounts s))) ->
     Permutation (scores s) (map Joined.gs listed)).
Proof.
  intros Hr. apply store_reachable_S in Hr. destruct Hr as [H1 _].
  unfold reply. rewrite getGameScores_unfolded, H1.
  set (joined := join_users (scores s) (accounts s)).
  assert (Hp := order_by_gs_played_at_permutation joined).
  eexists. split; [reflexivity|]. split; [|split].
  - apply order_by_gs_played_at_sorted.
  - intros j. rewrite <- in_join_users. fold joined. split; intros Hj.
    + now apply (Permutation_in _ (Permutation_sym Hp)).
    + now apply (Permutation_in _ Hp).
  - intros Hnd Hown.
    rewrite <- (join_users_total (scores s) (accounts s) Hnd Hown) at 1.
    fold joined. now apply Permutation_map.
Qed.

End Listings.

Section RegisterThenPlay.

Context {pg : Postgres}.
Context {idn : Identity} {laws : IdentityLaws idn}.

(** X15.  Who has registered can record a score.  After a registration
    answered "User registered successfully" with a non-empty [id], and
    after any sequence of further requests, a score sent under that [id]
    with a non-empty game type is acknowledged and appended under that
    [id] as soon as the store can be reached and accepts the three
    values; when the store refuses one of them (as PostgreSQL refuses a
    text holding U+0000 or an integer too large for the column), the
    answer is the [StorageError] and no score is written. *)
Theorem a_registered_user_can_record_scores
    (body : Reg.body) (pu : Public.user) (requests : list Request)
    (g : string) (z : Z) (s : Site) :
  reply (register body) s = Registered pu ->
  Public.id pu <> EmptyString ->
  g <> EmptyString ->
  let s' := serve_all requests (left_by (register body) s) in
  store_reachable 1 s' ->
  let played := Task.on_ledger (recordScore (request (Public.id pu) g z)) in
  (user_id_in (JsString (Public.id pu)) = Some (Public.id pu) ->
   game_type_in (JsString g) = Some g ->
   score_in (JsNumber z) = Some z ->
   fst (played s') = Fulfilled Acknowledgment /\
   scores (left_by played s') =
   (scores s' ++ [{| user_id := Public.id pu; game_type := g; score := z;
                     played_at := clock s' |}])%list)
  /\
  (user_id_in (JsString (Public.id pu)) = None \/
   game_type_in (JsString g) = None \/
   score_in (JsNumber z) = None ->
   fst (played s') = Fulfilled StorageError /\
   scores (left_by played s') = scores s').
Proof.
  intros Hreg Hid Hg s' Hr played.
  destruct (register_registered body pu s Hreg)
    as (u & e & p & _ & _ & _ & _ & _ & _ & _ & Hpu & Hacc & _).
  assert (Hknown : known_user (db (world_of s')) (Public.id pu) = true).
  { unfold known_user. cbn [world_of db users].
    apply existsb_exists. exists (Public.id pu).
    split; [|apply String.eqb_refl].
    destruct (serve_all_appends requests (left_by (register body) s))
      as (na & _ & Ha & _).
    fold s' in Ha.
    assert (Hin : In (Public.id pu)
                     (map (fun c => fst (fst (fst (fst c))))
                          (map identity_columns (accounts s')))).
    { rewrite Ha, Hacc, !map_app. cbn [map identity_columns fst].
      rewrite Hpu. cbn [public_columns Public.id Users.id].
      apply in_or_app. left. apply in_or_app. right. now left. }
    rewrite map_map in Hin. exact Hin. }
  split.
  - intros Eu Eg Ez. unfold played, left_by, Task.on_ledger.
    rewrite (recordScore_accepted (Public.id pu) g z (world_of s') Hid Hg
               Eu Eg Ez Hknown Hr).
    split; reflexivity.
  - intros Hrefused. unfold played, left_by, Task.on_ledger.
    assert (Hsettles := recordScore_settles
                          (request (Public.id pu) g z) (world_of s')).
    destruct (recordScore_leaves (request (Public.id pu) g z) (world_of s'))
      as [(Hresp & _)|[(Hresp & Hafter)|(_ & r & Eu & Eg & Ez & _)]].
    + exfalso.
      destruct (recordScore_cases (request (Public.id pu) g z) (world_of s'))
        as [(_ & _ & [H|[H|H]])|[(H & _)|(H & _)]];
        try (rewrite H in Hresp; discriminate Hresp);
        cbn [request Req.userId Req.gameType Req.score truthy] in H.
      * apply negb_false_iff, String.eqb_eq in H. contradiction.
      * apply negb_false_iff, String.eqb_eq in H. contradiction.
      * discriminate H.
    + unfold response, after in Hresp, Hafter.
      destruct Hsettles as (r & Hfst).
      destruct (recordScore (request (Public.id pu) g z) (world_of s'))
        as [x w']. cbn [fst snd] in *. subst x w'.
      split; [now rewrite Hresp | reflexivity].
    + cbn [request Req.userId Req.gameType Req.score] in Eu, Eg, Ez.
      destruct Hrefused as [H|[H|H]]; congruence.
Qed.

End RegisterThenPlay.

(* ================================================================== *)
(** * Failed account requests *)
(* ================================================================== *)

Section AccountFailures.

Context {idn : Identity}.

(** X16.  A registration or a login that fails writes nothing.  Unless
    the answer is "User registered successfully" no account is added, and
    unless it is "Login successful" no [last_login] is set, whichever
    validation, look-up or query made it fail; and neither handler ever
    writes a score. *)
Theorem failed_account_requests_write_nothing :
  (forall (body : Reg.body) (s : Site),
     (forall pu, reply (register body) s <> Registered pu) ->
     accounts (left_by (register body) s) = accounts s)
  /\
  (forall (body : Login.body) (s : Site),
     (forall pu, reply (login body) s <> LoggedIn pu) ->
     accounts (left_by (login body) s) = accounts s)
  /\
  (forall (body : Reg.body) (s : Site),
     scores (left_by (register body) s) = scores s)
  /\
  (forall (body : Login.body) (s : Site),
     scores (left_by (login body) s) = scores s).
Proof.
  split; [|split; [|split]].
  - intros body s. unfold reply, left_by.
    destruct (truthy (Reg.username body)) eqn:Tu;
      [destruct (truthy (Reg.email body)) eqn:Te;
       [destruct (truthy (Reg.password body)) eqn:Tp|]|];
      [|rewrite register_rejected by auto; reflexivity ..].
    rewrite (register_unfolded body s Tu Te Tp).
    destruct (hd false (script s)); [reflexivity|].
    destruct (username_in _) as [u|]; [|reflexivity].
    destruct (existsb _ _); [reflexivity|].
    destruct (hd false (script (spent s))); [reflexivity|].
    destruct (email_in _) as [e|]; [|reflexivity].
    destruct (existsb _ _); [reflexivity|].
    destruct (hd false (script (spent (spent s)))); [reflexivity|].
    destruct (password_in _) as [p|]; [|reflexivity].
    cbn [fst snd]. intros H. now destruct (H _ eq_refl).
  - intros body s. unfold reply, left_by.
    destruct (truthy (Login.email body)) eqn:Te;
      [destruct (truthy (Login.password body)) eqn:Tp|];
      [|rewrite login_rejected by auto; reflexivity ..].
    rewrite (login_unfolded body s Te Tp).
    destruct (hd false (script s)); [reflexivity|].
    destruct (email_in _) as [e|]; [|reflexivity].
    destruct (password_in _) as [p|]; [|reflexivity].
    destruct (filter _ _) as [|a rest]; [reflexivity|].
    destruct (hd false (script (spent s))); [reflexivity|].
    cbn [fst snd]. intros H. now destruct (H _ eq_refl).
  - intros body s. unfold left_by.
    destruct (truthy (Reg.username body)) eqn:Tu;
      [destruct (truthy (Reg.email body)) eqn:Te;
       [destruct (truthy (Reg.password body)) eqn:Tp|]|];
      [|rewrite register_rejected by auto; reflexivity ..].
    rewrite (register_unfolded body s Tu Te Tp).
    destruct (hd false (script s)); [reflexivity|].
    destruct (username_in _) as [u|]; [|reflexivity].
    destruct (existsb _ _); [reflexivity|].
    destruct (hd false (script (spent s))); [reflexivity|].
    destruct (email_in _) as [e|]; [|reflexivity].
    destruct (existsb _ _); [reflexivity|].
    destruct (hd false (script (spent (spent s)))); [reflexivity|].
    destruct (password_in _) as [p|]; reflexivity.
  - intros body s. unfold left_by.
    destruct (truthy (Login.email body)) eqn:Te;
      [destruct (truthy (Login.password body)) eqn:Tp|];
      [|rewrite login_rejected by auto; reflexivity ..].
    rewrite (login_unfolded body s Te Tp).
    destruct (hd false (script s)); [reflexivity|].
    destruct (email_in _) as [e|]; [|reflexivity].
    destruct (password_in _) as [p|]; [|reflexivity].
    destruct (filter _ _) as [|a rest]; [reflexivity|].
    destruct (hd false (script (spent s))); reflexivity.
Qed.

End AccountFailures.

(* ================================================================== *)
(** * The further theorems at work *)
(* ================================================================== *)

(** [small_site] is what three requests make of the empty site. *)
Example small_site_history :
  serve_all (pg := stable_backend) (idn := serial_identity)
    [PostRegister ada_body;
     Elapse 1001 [];
     PostRegister bob_body;
     Elapse 1002 [];
     PostGameScore (request "1" "clicker" 7)]
    empty_site = small_site.
Proof. vm_compute. reflexivity. Qed.


Lemma best_scores_ignore_other_game_types_witness :
  exists s s',
    snapshot (response (getStats (pg := stable_backend) "ada") league_world) =
      Some s /\
    snapshot (response (getStats (pg := stable_backend) "ada")
                (after (recordScore (pg := stable_backend)
                          (request "ada" "tetris" 500)) league_world)) =
      Some s' /\
    bestClickerScore s' = bestClickerScore s /\
    bestMemoryMoves s' = bestMemoryMoves s.
Proof.
  destruct (best_scores_ignore_other_game_types (pg := stable_backend)
              "ada" (request "ada" "tetris" 500) "tetris" league_world
              eq_refl eq_refl)
    as (s & s' & Hs & Hs' & Hc & Hm).
  exists s, s'. repeat split; try assumption.
  - apply Hc. discriminate.
  - apply Hm. discriminate.
Defined.

Lemma best_scores_after_a_record_witness :
  exists s s',
    snapshot (response (getStats (pg := stable_backend) "ada") league_world) =
      Some s /\
    snapshot (response (getStats (pg := stable_backend) "ada")
                (after (recordScore (pg := stable_backend)
                          (request "ada" "clicker" 12)) league_world)) =
      Some s' /\
    bestClickerScore s' = Z.max (bestClickerScore s) 12.
Proof.
  destruct (best_scores_after_a_record (pg := stable_backend)
              (request "ada" "clicker" 12) "ada" "clicker" 12 league_world
              eq_refl eq_refl eq_refl eq_refl eq_refl)
    as (s & s' & Hs & Hs' & Hc & _).
  exists s, s'. repeat split; try assumption.
  apply (Hc eq_refl).
  eexists. split; [left; reflexivity|]. split; reflexivity.
Defined.

Lemma latest_game_is_listed_first_witness :
  exists s,
    snapshot (response (getStats (pg := stable_backend) "ada")
                (after (recordScore (pg := stable_backend)
                          (request "ada" "memory" 11)) league_world)) =
      Some s /\
    hd_error (recentGames s) =
    Some {| rg_game_type := "memory"; rg_score := 11;
            rg_played_at := 1000 |}.
Proof.
  apply (latest_game_is_listed_first
           (pg := stable_backend) (laws := stable_backend_laws)
           "ada" "memory" 11 league_world).
  - discriminate.
  - discriminate.
  - reflexivity.
  - reflexivity.
  - intros r [<-|[<-|[<-|[]]]] _; cbn; lia.
Defined.

Lemma getStats_stops_at_the_first_rejection_witness :
  response (getStats (pg := stable_backend) "ada")
           {| db := db league_world; now := 1000;
              outages := [false; true; true] |} = StorageError /\
  outages (after (getStats (pg := stable_backend) "ada")
             {| db := db league_world; now := 1000;
                outages := [false; true; true] |}) = [true].
Proof.
  apply (proj1 (getStats_stops_at_the_first_rejection
                  (pg := stable_backend) "ada"
                  {| db := db league_world; now := 1000;
                     outages := [false; true; true] |}) 1%nat).
  - lia.
  - reflexivity.
  - reflexivity.
Defined.

Lemma snapshot_fields_agree_up_to_writes_witness :
  exists s,
    snapshot (response
                (getStats_among (pg := checked_backend) "ada"
                   [RecordScore (request "bob" "clicker" 3)] []
                   [GetStats "bob"])
                league_world) = Some s /\
    Z.of_nat (List.length (recentGames s)) = Z.min 10 (totalGames s).
Proof.
  eexists. split; [reflexivity|].
  apply (snapshot_fields_agree_up_to_writes
           (pg := checked_backend) (ord := checked_backend_order)
           "ada" [RecordScore (request "bob" "clicker" 3)] []
           [GetStats "bob"] league_world).
  - reflexivity.
  - intros body [H|[H|[]]]; [|discriminate H].
    injection H as <-. discriminate.
Defined.

(** A score of the user recorded between the first read and the second
    is missing from [totalGames] and present in the three other fields. *)
Example a_write_between_the_reads :
  snapshot (response
              (getStats_among (pg := checked_backend) "ada"
                 [RecordScore (request "ada" "clicker" 7)] [] [])
              fresh_world) =
  Some {| totalGames := 0;
          bestClickerScore := 7;
          bestMemoryMoves := 0;
          recentGames :=
            [{| rg_game_type := "clicker"; rg_score := 7;
                rg_played_at := 1000 |}] |}.
Proof. reflexivity. Qed.


Lemma account_requests_are_validated_first_witness :
  register (idn := serial_identity)
    {| Reg.username := JsString "eve"; Reg.email := JsString EmptyString;
       Reg.password := JsString "x" |} small_site =
  (Fulfilled AllFieldsRequired, small_site) /\
  login (idn := serial_identity)
    {| Login.email := JsString "ada@example.org";
       Login.password := JsUndefined |} small_site =
  (Fulfilled CredentialsRequired, small_site).
Proof.
  destruct (account_requests_are_validated_first (idn := serial_identity))
    as (Hreg & Hlog & _).
  split.
  - apply Hreg. right; left. reflexivity.
  - apply Hlog. right. reflexivity.
Defined.


Lemma usernames_and_emails_stay_unique_witness :
  NoDup (map Users.username
           (accounts (serve_all (pg := stable_backend) (idn := serial_identity)
                        [PostRegister ada_body; PostRegister bob_body;
                         PostRegister ada_body]
                        small_site))).
Proof.
  apply (usernames_and_emails_stay_unique
           (pg := stable_backend) (idn := serial_identity)
           (laws := serial_identity_laws)).
  repeat constructor; cbn; intuition discriminate.
Defined.

Lemma accounts_and_scores_are_only_appended_witness :
  exists a',
    nth_error
      (accounts (serve_all (pg := stable_backend) (idn := serial_identity)
                   [PostLogin {| Login.email := JsString "bob@example.org";
                                 Login.password := JsString "hunter2" |};
                    PostRegister {| Reg.username := JsString "eve";
                                    Reg.email := JsString "eve@example.org";
                                    Reg.password := JsString "pw" |}]
                   small_site)) 1 = Some a' /\
    identity_columns a' =
    ("2", "bob", "bob@example.org", "hunter2", 1001).
Proof.
  destruct (accounts_and_scores_are_only_appended
              (pg := stable_backend) (idn := serial_identity)
              [PostLogin {| Login.email := JsString "bob@example.org";
                            Login.password := JsString "hunter2" |};
               PostRegister {| Reg.username := JsString "eve";
                               Reg.email := JsString "eve@example.org";
                               Reg.password := JsString "pw" |}]
              small_site) as (_ & Hacc & _).
  destruct (Hacc 1%nat _ eq_refl) as (a' & Ha & Hid).
  exists a'. split; [exact Ha | exact Hid].
Defined.


Lemma users_are_listed_newest_first_witness :
  store_reachable 1 small_site /\
  exists listed,
    reply (getUsers (idn := serial_identity)) small_site =
      reply_json (Reply.UserList listed) /\
    Permutation (map listed_columns (accounts small_site)) listed.
Proof.
  split; [reflexivity|].
  destruct (proj1 (users_are_listed_newest_first
                     (idn := serial_identity) (laws := serial_identity_laws)
                     small_site) eq_refl)
    as (listed & Hreply & Hperm & _).
  exists listed. split; [exact Hreply | exact Hperm].
Defined.

(** On the serial backend the newest account comes first. *)
Example users_listing :
  reply (getUsers (idn := serial_identity)) small_site =
  reply_json
    (Reply.UserList
       [{| Listed.id := "2"; Listed.username := "bob";
           Listed.email := "bob@example.org";
           Listed.created_at := 1001; Listed.last_login := 1001 |};
        {| Listed.id := "1"; Listed.username := "ada";
           Listed.email := "ada@example.org";
           Listed.created_at := 1000; Listed.last_login := 1000 |}]).
Proof. reflexivity. Qed.

Lemma game_scores_are_listed_with_their_owner_witness :
  exists listed,
    reply (getGameScores (idn := serial_identity)) small_site =
      reply_json (Reply.ScoreList listed) /\
    Permutation (scores small_site) (map Joined.gs listed).
Proof.
  destruct (game_scores_are_listed_with_their_owner
              (idn := serial_identity) (laws := serial_identity_laws)
              small_site eq_refl)
    as (listed & Hreply & _ & _ & Hall).
  exists listed. split; [exact Hreply|].
  apply Hall.
  - repeat constructor; cbn; intuition discriminate.
  - intros r [<-|[]]. left. reflexivity.
Defined.

Lemma a_registered_user_can_record_scores_witness :
  fst (Task.on_ledger (recordScore (pg := checked_backend)
                         (request "1" "clicker" 3))
         (left_by (register (idn := serial_identity) ada_body) empty_site)) =
    Fulfilled Acknowledgment /\
  fst (Task.on_ledger (recordScore (pg := checked_backend)
                         (request "1" "clicker" 2147483648))
         (left_by (register (idn := serial_identity) ada_body) empty_site)) =
    Fulfilled StorageError.
Proof.
  split.
  - apply (a_registered_user_can_record_scores
             (pg := checked_backend)
             (idn := serial_identity) (laws := serial_identity_laws)
             ada_body
             {| Public.id := "1"; Public.username := "ada";
                Public.email := "ada@example.org";
                Public.created_at := 1000 |}
             [] "clicker" 3 empty_site).
    + vm_compute. reflexivity.
    + discriminate.
    + discriminate.
    + vm_compute. reflexivity.
    + reflexivity.
    + reflexivity.
    + reflexivity.
  - apply (a_registered_user_can_record_scores
             (pg := checked_backend)
             (idn := serial_identity) (laws := serial_identity_laws)
             ada_body
             {| Public.id := "1"; Public.username := "ada";
                Public.email := "ada@example.org";
                Public.created_at := 1000 |}
             [] "clicker" 2147483648 empty_site).
    + vm_compute. reflexivity.
    + discriminate.
    + discriminate.
    + vm_compute. reflexivity.
    + right; right. reflexivity.
Defined.

Lemma failed_account_requests_write_nothing_witness :
  accounts (left_by (register (idn := serial_identity) ada_body) small_site) =
  accounts small_site.
Proof.
  apply (proj1 (failed_account_requests_write_nothing
                  (idn := serial_identity))).
  intros pu. discriminate.
Defined.
